(** * A shallow embedding of dmd.js (src/lib/dmd.js)

    The display object [DMD] owns a flat array [data] of colours, a global
    [dirty] flag and a list [dirtyIndicies]; the repaint callback [painter]
    issues canvas operations.  [DMDTextPrinter] prints strings through
    [dmd.draw] with a bitmap font.

    Modelling conventions:
    - JavaScript values that reach the code are the inductive [jsval];
      numbers used as coordinates and bits are integers ([Z]).
    - [data] is a JavaScript array: a map from integer keys to strings
      together with its [length]; writing an array index [k >= length]
      ([0 <= k <= 2^32 - 2]) grows the length to [k + 1], any other key
      (negative, or [2^32 - 1] and above) is a plain property and leaves the
      length alone.
    - Every method runs in a state and exception monad [M]: a thrown
      exception keeps the writes done before it, as in JavaScript.
    - The canvas is a log of the drawing operations issued on it. *)

From Stdlib Require Import ZArith QArith String Ascii List DecimalString Lqa.
From stdpp Require Import base gmap list strings.

Open Scope Z_scope.
#[local] Set Warnings "-register-all".

(** ** JavaScript values *)

Inductive jsval :=
| JUndefined
| JNull
| JBool (b : bool)
| JNum (z : Z)
| JStr (s : string)
| JArr (l : list jsval)
| JObj                (** a plain object without a [join] method, e.g. [{}] *)
| JFun (src : string). (** a function, printed as its source text *)

Definition Z_to_js_string (z : Z) : string :=
  NilZero.string_of_int (Z.to_int z).

(** [String(v)] as used by [Array.prototype.join] for one element
    ([undefined] and [null] give the empty string), and [join] with the
    default separator [","]. *)
Fixpoint js_join_elem (v : jsval) : string :=
  match v with
  | JUndefined | JNull => ""
  | JBool true => "true"
  | JBool false => "false"
  | JNum z => Z_to_js_string z
  | JStr s => s
  | JArr l =>
      (fix go (l : list jsval) : string :=
         match l with
         | [] => ""
         | [a] => js_join_elem a
         | a :: l' => String.append (js_join_elem a) (String.append "," (go l'))
         end) l
  | JObj => "[object Object]"
  | JFun src => src
  end%string.

(** [l.join()] *)
Definition js_join (l : list jsval) : string := js_join_elem (JArr l).

(** ** Configuration and state of a [DMD] *)

Record config := Config {
  dot_size : Z;
  dot_width : Z;        (** [Math.floor(canvas.width / dot_size)] *)
  dot_height : Z;       (** [Math.floor(canvas.height / dot_size)] *)
  canvas_width : Z;
  canvas_height : Z;
  drawMode : string;
  background : string;
  off : string
}.

(** Operations issued on the 2D context.  [SetFillStyle None] is the
    assignment of [undefined] (the colour of a missing array entry);
    [Arc cx cy r] is [arc(cx, cy, r, 0, 2 * Math.PI)]. *)
Inductive canvas_op :=
| SetFillStyle (s : option string)
| FillRect (x y w h : Z)
| BeginPath
| Arc (cx cy r : Q)
| Fill.

Record mstate := MState {
  data : gmap Z string;
  data_length : Z;
  dirty : bool;
  dirtyIndicies : list Z;
  canvas_ops : list canvas_op
}.

(** ** The state and exception monad *)

Inductive res (A : Type) := Ok (a : A) | Err (e : string).
Arguments Ok {A} a.
Arguments Err {A} e.

Definition M (A : Type) : Type := mstate -> res A * mstate.

Global Instance M_ret : MRet M := fun A a s => (Ok a, s).
Global Instance M_bind : MBind M := fun A B f m s =>
  match m s with
  | (Ok a, s1) => f a s1
  | (Err e, s1) => (Err e, s1)
  end.

Definition throw {A} (e : string) : M A := fun s => (Err e, s).
Definition modify (f : mstate -> mstate) : M unit := fun s => (Ok tt, f s).
Definition gets {A} (f : mstate -> A) : M A := fun s => (Ok (f s), s).

(** [data[k] = v] on a JavaScript array.  Only an integer key in
    [[0, 2^32 - 2]] is an array index; writing one at or past [length] makes
    the length [k + 1].  Any other key (negative, or [2^32 - 1] and above) is
    an ordinary property: it is stored and read back under [data[k]] but
    leaves [length] alone. *)
Definition array_write (k : Z) (v : string) (s : mstate) : mstate :=
  MState (<[k := v]> (data s))
         (if (0 <=? k) && (k <=? 4294967294) && (data_length s <=? k) then k + 1
          else data_length s)
         (dirty s) (dirtyIndicies s) (canvas_ops s).

(** [dirtyIndicies.push(k)] *)
Definition push_dirty (k : Z) (s : mstate) : mstate :=
  MState (data s) (data_length s) (dirty s) (dirtyIndicies s ++ [k]) (canvas_ops s).

Definition set_dirty (b : bool) (s : mstate) : mstate :=
  MState (data s) (data_length s) b (dirtyIndicies s) (canvas_ops s).

Definition clear_dirty_indices (s : mstate) : mstate :=
  MState (data s) (data_length s) (dirty s) [] (canvas_ops s).

Definition emit (ops : list canvas_op) (s : mstate) : mstate :=
  MState (data s) (data_length s) (dirty s) (dirtyIndicies s) (canvas_ops s ++ ops).

(** ** [dmd.clear] *)

Fixpoint clear_loop (o : string) (n : nat) (i : Z) (d : gmap Z string) : gmap Z string :=
  match n with
  | O => d
  | S n' => clear_loop o n' (i + 1) (<[i := o]> d)
  end.

Definition clear (cfg : config) : M unit :=
  modify (fun s =>
    MState (clear_loop (off cfg) (Z.to_nat (data_length s)) 0 (data s))
           (data_length s) true (dirtyIndicies s) (canvas_ops s)).

(** The state right after the constructor: [new Array(w * h)] (all holes),
    [dirty = true], [dirtyIndicies = []], then [dmd.clear()]. *)
Definition init (cfg : config) : mstate :=
  snd (clear cfg (MState ∅ (dot_width cfg * dot_height cfg) true [] [])).

(** ** [dmd.set] *)

Definition set_write (cfg : config) (x y : Z) (color : string) : M unit :=
  modify (fun s => push_dirty (y * dot_width cfg + x)
                     (array_write (y * dot_width cfg + x) color s)).

Definition set (cfg : config) (x y : Z) (color : jsval) : M unit :=
  match color with
  | JArr l => set_write cfg x y (String.append "rgb(" (String.append (js_join l) ")"))
  | JNull => throw "TypeError: Cannot read properties of null (reading 'join')"
  | JObj => throw "TypeError: color.join is not a function"
  | JUndefined => set_write cfg x y (off cfg)
  | JStr c => set_write cfg x y c
  | JBool _ | JNum _ | JFun _ => mret tt
  end.

(** ** [dmd.draw] *)

(** A row of a shape: an array of bits ([typeof row === 'object']) or a
    number, which [draw] skips (its handling is commented out). *)
Inductive row :=
| RArr (bits : list Z)
| RNum (n : Z).

(** [options.color] and the truthiness of [options.fill]. *)
Record draw_options := DrawOptions { opt_color : jsval; opt_fill : bool }.

(** The inner loop over [j]: [paintingX = x + j]. *)
Fixpoint draw_cols (cfg : config) (x paintingY j : Z) (bits : list Z)
    (color : jsval) (forceFill hasPrinted : bool) : M bool :=
  match bits with
  | [] => mret hasPrinted
  | b :: bits' =>
      let paintingX := x + j in
      if (0 <=? paintingX) && (paintingX <? dot_width cfg) then
        let show := (b =? 1) in
        if show || forceFill then
          _ ← set cfg paintingX paintingY (if show then color else JUndefined);
          draw_cols cfg x paintingY (j + 1) bits' color forceFill true
        else draw_cols cfg x paintingY (j + 1) bits' color forceFill hasPrinted
      else draw_cols cfg x paintingY (j + 1) bits' color forceFill hasPrinted
  end.

(** The outer loop over [i]: [paintingY = y + i]. *)
Fixpoint draw_rows (cfg : config) (x y i : Z) (shape : list row)
    (color : jsval) (forceFill hasPrinted : bool) : M bool :=
  match shape with
  | [] => mret hasPrinted
  | r :: shape' =>
      let paintingY := y + i in
      if (0 <=? paintingY) && (paintingY <? dot_height cfg) then
        match r with
        | RArr bits =>
            hp ← draw_cols cfg x paintingY 0 bits color forceFill hasPrinted;
            draw_rows cfg x y (i + 1) shape' color forceFill hp
        | RNum _ => draw_rows cfg x y (i + 1) shape' color forceFill hasPrinted
        end
      else draw_rows cfg x y (i + 1) shape' color forceFill hasPrinted
  end.

Definition draw (cfg : config) (x y : Z) (shape : list row) (options : draw_options) : M bool :=
  draw_rows cfg x y 0 shape (opt_color options) (opt_fill options) false.

(** ** [dmd.fill] and [dmd.rect] *)

Fixpoint fill_inner (cfg : config) (n : nat) (i j : Z) (color : jsval) : M unit :=
  match n with
  | O => mret tt
  | S n' => _ ← set cfg i j color; fill_inner cfg n' i (j + 1) color
  end.

Fixpoint fill_outer (cfg : config) (n : nat) (i y h : Z) (color : jsval) : M unit :=
  match n with
  | O => mret tt
  | S n' => _ ← fill_inner cfg (Z.to_nat h) i y color; fill_outer cfg n' (i + 1) y h color
  end.

Definition fill (cfg : config) (x y w h : Z) (color : jsval) : M unit :=
  fill_outer cfg (Z.to_nat w) x y h color.

(** [j == y || j == y + h - 1 || i == x || i == x + w - 1] *)
Definition on_border (x y w h i j : Z) : bool :=
  (j =? y) || (j =? y + h - 1) || (i =? x) || (i =? x + w - 1).

Fixpoint rect_inner (cfg : config) (n : nat) (x y w h i j : Z) (color : jsval) : M unit :=
  match n with
  | O => mret tt
  | S n' =>
      _ ← (if on_border x y w h i j then set cfg i j color else mret tt);
      rect_inner cfg n' x y w h i (j + 1) color
  end.

Fixpoint rect_outer (cfg : config) (n : nat) (x y w h i : Z) (color : jsval) : M unit :=
  match n with
  | O => mret tt
  | S n' =>
      _ ← rect_inner cfg (Z.to_nat h) x y w h i y color;
      rect_outer cfg n' x y w h (i + 1) color
  end.

Definition rect (cfg : config) (x y w h : Z) (color : jsval) : M unit :=
  rect_outer cfg (Z.to_nat w) x y w h x color.

(** ** [painter] *)

(** [updateLed(i, flush)] *)
Definition updateLed (cfg : config) (i : Z) (flush : bool) : M unit :=
  modify (fun s =>
    let ds := dot_size cfg in
    let col := Z.rem i (dot_width cfg) in
    let rw := Z.div i (dot_width cfg) in
    let led := data s !! i in
    emit ((if flush then [SetFillStyle (Some (background cfg)); FillRect (col * ds) (rw * ds) ds ds]
           else [])
          ++ [SetFillStyle led]
          ++ (if String.eqb (drawMode cfg) "circle" then
                [BeginPath;
                 Arc (inject_Z (col * ds) + inject_Z ds / 2)
                     (inject_Z (rw * ds) + inject_Z ds / 2)
                     (inject_Z ds / (5 # 2));
                 Fill]
              else [FillRect (col * ds) (rw * ds) ds ds])) s).

Fixpoint full_repaint_loop (cfg : config) (n : nat) (i : Z) : M unit :=
  match n with
  | O => mret tt
  | S n' => _ ← updateLed cfg i false; full_repaint_loop cfg n' (i + 1)
  end.

Fixpoint sparse_repaint_loop (cfg : config) (l : list Z) : M unit :=
  match l with
  | [] => mret tt
  | index :: l' => _ ← updateLed cfg index true; sparse_repaint_loop cfg l'
  end.

Definition painter (cfg : config) : M unit :=
  s ← gets id;
  if negb (dirty s) && (length (dirtyIndicies s) =? 0)%nat then mret tt
  else
    _ ← (if dirty s then
           modify (emit [SetFillStyle (Some (background cfg));
                         FillRect 0 0 (canvas_width cfg) (canvas_height cfg)])
         else mret tt);
    if dirty s then
      _ ← full_repaint_loop cfg (Z.to_nat (data_length s)) 0;
      modify (set_dirty false)
    else
      _ ← sparse_repaint_loop cfg (dirtyIndicies s);
      modify clear_dirty_indices.

(** ** [DMDTextPrinter] *)

(** A glyph is an array of rows carrying the cached [width] property
    ([None] while it is [undefined]). *)
Record glyph := Glyph { glyph_rows : list row; glyph_width : option Z }.

(** A font table: an object whose keys are single characters.  Glyph values
    are copied, not shared; the cached width is a function of the rows, so
    sharing one glyph object under two keys is not observable. *)
Definition font := list (ascii * glyph).

Fixpoint font_lookup (f : font) (c : ascii) : option glyph :=
  match f with
  | [] => None
  | (k, g) :: f' => if Ascii.eqb k c then Some g else font_lookup f' c
  end.

(** [font[c] = g] for a key already present. *)
Fixpoint font_update (f : font) (c : ascii) (g : glyph) : font :=
  match f with
  | [] => []
  | (k, g0) :: f' => if Ascii.eqb k c then (k, g) :: f' else (k, g0) :: font_update f' c g
  end.

(** [font[key]] for a string key. *)
Definition font_get (f : font) (key : string) : option glyph :=
  match key with
  | String c EmptyString => font_lookup f c
  | _ => None
  end.

(** [updateFontData(characterFont)] *)
Definition updateFontData (g : glyph) : glyph :=
  Glyph (glyph_rows g)
        (Some (fold_left (fun width r =>
                 match r with
                 | RArr bits => Z.max width (Z.of_nat (length bits))
                 | RNum _ => width
                 end) (glyph_rows g) 0)).

(** [!characterFont.width]: [undefined] and [0] are falsy. *)
Definition needs_width (g : glyph) : bool :=
  match glyph_width g with
  | None => true
  | Some w => w =? 0
  end.

(** [ToNumber(font.length)], [None] standing for [NaN].  A missing property
    is [undefined], i.e. [NaN]; a glyph under the key ["length"] would be
    converted through its string form (the rows joined by commas). *)
Definition font_length (f : font) : option Z :=
  match font_get f "length" with
  | None => None
  | Some g =>
      match glyph_rows g with
      | [] | [RArr []] => Some 0
      | [RArr [b]] | [RNum b] => Some b
      | _ => None
      end
  end.

Fixpoint updateFont_loop (n : nat) (i : Z) (f : font) : res font :=
  match n with
  | O => Ok f
  | S n' =>
      match Z_to_js_string i with
      | String c EmptyString as key =>
          match font_get f key with
          | None => Err "TypeError: Cannot read properties of undefined (reading 'width')"
          | Some g =>
              updateFont_loop n' (i + 1)
                (if needs_width g then font_update f c (updateFontData g) else f)
          end
      | _ => Err "TypeError: Cannot read properties of undefined (reading 'width')"
      end
  end.

(** [this.updateFont(font)]: [for (i = 0; i < font.length; i++)]; a
    comparison with [NaN] is false. *)
Definition updateFont (f : font) : res font :=
  match font_length f with
  | None => Ok f
  | Some len => updateFont_loop (Z.to_nat len) 0 f
  end.

(** [undefined + 1] cannot arise: [print] caches a width before using it. *)
Definition width_num (g : glyph) : Z :=
  match glyph_width g with Some w => w | None => 0 end.

(** The loop of [print] over the characters of [text] while
    [currentX <= dmd.dot_width]; a missing glyph is only logged. *)
Fixpoint print_loop (cfg : config) (text : list ascii) (currentX y : Z)
    (drawOptions : draw_options) (f : font) (printed : Z) : M (font * Z) :=
  match text with
  | [] => mret (f, printed)
  | c :: text' =>
      if currentX <=? dot_width cfg then
        match font_lookup f c with
        | None => print_loop cfg text' currentX y drawOptions f printed
        | Some g =>
            let g' := if needs_width g then updateFontData g else g in
            let f' := if needs_width g then font_update f c g' else f in
            draw cfg currentX y (glyph_rows g') drawOptions ≫= λ b : bool,
            print_loop cfg text' (currentX + width_num g' + 1) y drawOptions f'
              (if b then printed + 1 else printed)
        end
      else mret (f, printed)
  end.

(** [this.print(x, y, text, {font, color, fill})]; returns the font (whose
    glyphs may now carry a cached width) and [printed > 0]. *)
Definition print (cfg : config) (x y : Z) (text : string) (f : font)
    (color : jsval) (fill : bool) : M (font * bool) :=
  print_loop cfg (list_ascii_of_string text) x y (DrawOptions color fill) f 0 ≫= λ r : font * Z,
  mret (fst r, 0 <? snd r).

(** ** Colours as the spec names them *)

(** A colour argument the spec calls valid: a string, a channel triple, or
    omitted. *)
Definition valid_color (c : jsval) : bool :=
  match c with
  | JStr _ | JUndefined => true
  | JArr l => (length l =? 3)%nat
  | _ => false
  end.

(** The colour a valid argument stands for: the string itself, the triple
    joined into ['rgb(...)'], or the off colour. *)
Definition resolved_color (cfg : config) (c : jsval) : string :=
  match c with
  | JStr s => s
  | JArr l => String.append "rgb(" (String.append (js_join l) ")")
  | _ => off cfg
  end.

(** [[j; j + 1; ...; j + n - 1]] *)
Fixpoint zseq (j : Z) (n : nat) : list Z :=
  match n with
  | O => []
  | S n' => j :: zseq (j + 1) n'
  end.

(** ** The footprint of a shape *)

(** Flat index [k] is the in-grid cell under column [j] of an array row [i]
    of [shape] drawn at [(x, y)]. *)
Definition footprint_cell (cfg : config) (x y : Z) (shape : list row) (k : Z) : Prop :=
  exists (i j : nat) bits,
    nth_error shape i = Some (RArr bits) /\ (j < length bits)%nat /\
    0 <= y + Z.of_nat i < dot_height cfg /\ 0 <= x + Z.of_nat j < dot_width cfg /\
    k = (y + Z.of_nat i) * dot_width cfg + (x + Z.of_nat j).

(** ** [print] as the spec describes it *)

(** The glyph after [print] has looked at it: its width computed and cached
    when it had none. *)
Definition cache_glyph (g : glyph) : glyph :=
  if needs_width g then updateFontData g else g.

(** A run of [print] from cursor [cx] over the remaining characters, as the
    spec words it: the walk stops at the end of the text or once the cursor
    is past the grid width; a character without a glyph is skipped and the
    cursor stays; a present glyph is drawn at the cursor, the cursor then
    advances by the glyph width plus one whatever the draw reported, and
    the run reports true iff some draw reported true. *)
Inductive print_spec (cfg : config) (y : Z) (opts : draw_options) :
    Z -> list ascii -> font -> mstate -> font -> mstate -> bool -> Prop :=
| ps_end cx f s :
    print_spec cfg y opts cx [] f s f s false
| ps_stop cx c text f s :
    dot_width cfg < cx ->
    print_spec cfg y opts cx (c :: text) f s f s false
| ps_skip cx c text f s f' s' b :
    cx <= dot_width cfg -> font_lookup f c = None ->
    print_spec cfg y opts cx text f s f' s' b ->
    print_spec cfg y opts cx (c :: text) f s f' s' b
| ps_draw cx c text f s g s1 b1 f' s' b2 :
    cx <= dot_width cfg -> font_lookup f c = Some g ->
    draw cfg cx y (glyph_rows g) opts s = (Ok b1, s1) ->
    print_spec cfg y opts (cx + width_num (cache_glyph g) + 1) text
      (if needs_width g then font_update f c (cache_glyph g) else f) s1 f' s' b2 ->
    print_spec cfg y opts cx (c :: text) f s f' s' (b1 || b2).

(** ** Write footprints *)

(** [s'] differs from [s] only at keys satisfying [K], and every index it
    pushed onto the dirty collection satisfies [K]. *)
Definition only_writes (K : Z -> Prop) (s s' : mstate) : Prop :=
  (forall k, data s' !! k = data s !! k \/ K k) /\
  exists added, dirtyIndicies s' = dirtyIndicies s ++ added /\ Forall K added.

(** ** Observations *)

(** The fill styles set by a list of canvas operations, in order. *)
Fixpoint fill_styles (ops : list canvas_op) : list (option string) :=
  match ops with
  | [] => []
  | SetFillStyle c :: ops' => c :: fill_styles ops'
  | _ :: ops' => fill_styles ops'
  end.

(** [f'] differs from [f] only by cached widths: the same keys in the same
    order, and under every key either the same glyph or, for a glyph whose
    [width] was falsy, that glyph with the width [updateFontData] computes. *)
Definition caches_widths (f f' : font) : Prop :=
  map fst f' = map fst f /\
  forall ch,
    match font_lookup f ch, font_lookup f' ch with
    | None, None => True
    | Some g, Some g' => g' = g \/ (needs_width g = true /\ g' = updateFontData g)
    | _, _ => False
    end.

(** The operations [updateLed(i)] draws dot [i] with once its fill style is
    set: the [drawCircles] branch (a disc) or the square of the dot. *)
Definition led_shape (cfg : config) (i : Z) : list canvas_op :=
  let ds := dot_size cfg in
  let col := Z.rem i (dot_width cfg) in
  let rw := Z.div i (dot_width cfg) in
  if String.eqb (drawMode cfg) "circle" then
    [BeginPath;
     Arc (inject_Z (col * ds) + inject_Z ds / 2)
         (inject_Z (rw * ds) + inject_Z ds / 2)
         (inject_Z ds / (5 # 2));
     Fill]
  else [FillRect (col * ds) (rw * ds) ds ds].

(** ** Sample configurations *)

(** A 4 x 4 grid of one-pixel dots. *)
Definition cfg44 : config :=
  Config 1 4 4 4 4 "circle" "rgb(60,60,60)" "rgb(50,50,50)".

Example init_cfg44_off : data (init cfg44) !! 5 = Some "rgb(50,50,50)"%string.
Proof. reflexivity. Qed.

Example set_example :
  data (snd (set cfg44 1 1 (JStr "rgb(1,2,3)") (init cfg44))) !! 5 = Some "rgb(1,2,3)"%string.
Proof. reflexivity. Qed.

Example set_triple :
  data (snd (set cfg44 1 1 (JArr [JNum 1; JNum 2; JNum 30]) (init cfg44))) !! 5
  = Some "rgb(1,2,30)"%string.
Proof. reflexivity. Qed.

Example print_A :
  let fA := [("A"%char, Glyph [RArr [0;1;0]; RArr [1;1;1]] None)] in
  fst (print cfg44 0 0 "A" fA (JStr "white") false (init cfg44))
  = Ok ([("A"%char, Glyph [RArr [0;1;0]; RArr [1;1;1]] (Some 3))], true).
Proof. reflexivity. Qed.

(** ** Frame lemmas for [set] and the repaint loops *)

Lemma set_data_frame cfg x y c s k :
  k = y * dot_width cfg + x \/ data (snd (set cfg x y c s)) !! k = data s !! k.
Proof.
  destruct (decide (k = y * dot_width cfg + x)) as [->|Hne]; [now left|right].
  destruct c; simpl; try reflexivity; rewrite lookup_insert_ne; congruence.
Qed.

Lemma updateLed_fields cfg i fl s :
  fst (updateLed cfg i fl s) = Ok tt /\
  data (snd (updateLed cfg i fl s)) = data s /\
  dirty (snd (updateLed cfg i fl s)) = dirty s /\
  dirtyIndicies (snd (updateLed cfg i fl s)) = dirtyIndicies s.
Proof. repeat split. Qed.

Lemma full_repaint_loop_fields cfg n i s :
  fst (full_repaint_loop cfg n i s) = Ok tt /\
  data (snd (full_repaint_loop cfg n i s)) = data s /\
  dirty (snd (full_repaint_loop cfg n i s)) = dirty s /\
  dirtyIndicies (snd (full_repaint_loop cfg n i s)) = dirtyIndicies s.
Proof.
  revert i s; induction n as [|n IH]; intros i s; [repeat split|].
  simpl. unfold mbind, M_bind. cbn [fst snd].
  destruct (IH (i + 1) (snd (updateLed cfg i false s))) as (H1 & H2 & H3 & H4).
  unfold updateLed, modify in *. cbn in *. repeat split; assumption.
Qed.

Lemma sparse_repaint_loop_fields cfg l s :
  fst (sparse_repaint_loop cfg l s) = Ok tt /\
  data (snd (sparse_repaint_loop cfg l s)) = data s /\
  dirty (snd (sparse_repaint_loop cfg l s)) = dirty s /\
  dirtyIndicies (snd (sparse_repaint_loop cfg l s)) = dirtyIndicies s.
Proof.
  revert s; induction l as [|i l IH]; intros s; [repeat split|].
  simpl. unfold mbind, M_bind.
  destruct (IH (snd (updateLed cfg i true s))) as (H1 & H2 & H3 & H4).
  unfold updateLed, modify in *. cbn in *. repeat split; assumption.
Qed.

(** ** C1: the flags after one repaint *)

(** Claim C1 (code_bug).  What one invocation of [painter] does to the two
    dirtiness signals: the global flag ends false and the stored colours are
    untouched, but only the sparse branch empties the per-index collection
    ([dirtyIndicies.length = 0]); the full-repaint branch resets [dirty] and
    leaves the collection as it was, so a cycle entered with the flag set does
    not drain it.  Only a second invocation with no mutation in between leaves
    both signals clean. *)
Theorem painter_dirty_state cfg s :
  dirty (snd (painter cfg s)) = false /\
  dirtyIndicies (snd (painter cfg s)) = (if dirty s then dirtyIndicies s else []) /\
  data (snd (painter cfg s)) = data s /\
  dirty (snd (painter cfg (snd (painter cfg s)))) = false /\
  dirtyIndicies (snd (painter cfg (snd (painter cfg s)))) = [].
Proof.
  assert (Hone : forall s0,
    dirty (snd (painter cfg s0)) = false /\
    dirtyIndicies (snd (painter cfg s0)) = (if dirty s0 then dirtyIndicies s0 else []) /\
    data (snd (painter cfg s0)) = data s0).
  { intros s0. cbv [painter gets mbind M_bind mret M_ret modify id]. cbn beta iota.
    destruct (dirty s0) eqn:Hd; cbn.
    - destruct (full_repaint_loop_fields cfg (Z.to_nat (data_length s0)) 0
                  (emit [SetFillStyle (Some (background cfg));
                         FillRect 0 0 (canvas_width cfg) (canvas_height cfg)] s0))
        as (H1 & H2 & H3 & H4).
      destruct (full_repaint_loop cfg _ _ _) as [r s1]. cbn in *. subst r. cbn.
      repeat split; auto.
    - destruct (length (dirtyIndicies s0) =? 0)%nat eqn:Hl; cbn.
      + apply Nat.eqb_eq, length_zero_iff_nil in Hl. repeat split; auto.
      + destruct (sparse_repaint_loop_fields cfg (dirtyIndicies s0) s0) as (H1 & H2 & H3 & H4).
        destruct (sparse_repaint_loop cfg (dirtyIndicies s0) s0) as [r s1].
        cbn in *. subst r. cbn. repeat split; congruence. }
  destruct (Hone s) as (H1 & H2 & H3).
  destruct (Hone (snd (painter cfg s))) as (H4 & H5 & H6).
  rewrite H4, H5, H1. auto.
Qed.

(** Claim C1 (failing input).  From the constructed display, [set(1, 1,
    'red')] followed by one repaint leaves index 5 in the dirty collection. *)
Lemma painter_keeps_indices_on_full_repaint :
  let s1 := snd (set cfg44 1 1 (JStr "red") (init cfg44)) in
  dirty s1 = true /\
  dirty (snd (painter cfg44 s1)) = false /\
  dirtyIndicies (snd (painter cfg44 s1)) = [5].
Proof. vm_compute. repeat split. Qed.

Lemma set_valid_color cfg x y c :
  valid_color c = true -> set cfg x y c = set_write cfg x y (resolved_color cfg c).
Proof. intros Hc. destruct c; try discriminate Hc; reflexivity. Qed.

Lemma set_write_data cfg x y v s :
  set_write cfg x y v s =
  (Ok tt, push_dirty (y * dot_width cfg + x) (array_write (y * dot_width cfg + x) v s)).
Proof. reflexivity. Qed.

(** ** C2: [set] at out-of-grid coordinates *)

(** Claim C2 (corrected).  [set] performs no bounds check: whatever the
    coordinates and the colour, it changes the backing store at most at the
    flat index [y * width + x], and with a valid colour it stores the resolved
    colour at that index.  So an out-of-grid coordinate changes no grid cell
    when its flat index is outside [0, width * height), and overwrites the
    grid cell at that index when it is inside. *)
Theorem set_writes_only_flat_index cfg x y c s :
  (forall k, k = y * dot_width cfg + x \/ data (snd (set cfg x y c s)) !! k = data s !! k) /\
  (valid_color c = true ->
   data (snd (set cfg x y c s)) !! (y * dot_width cfg + x) = Some (resolved_color cfg c)).
Proof.
  split; [intros k; apply set_data_frame|].
  intros Hc. rewrite set_valid_color by exact Hc. rewrite set_write_data.
  exact (lookup_insert_eq (data s) (y * dot_width cfg + x) (resolved_color cfg c)).
Qed.

Lemma set_writes_only_flat_index_witness :
  data (snd (set cfg44 4 0 (JStr "red") (init cfg44))) !! (0 * dot_width cfg44 + 4)
  = Some (resolved_color cfg44 (JStr "red")).
Proof. exact (proj2 (set_writes_only_flat_index cfg44 4 0 (JStr "red") (init cfg44)) eq_refl). Defined.

(** Claim C2 (counterexample).  On a 4 x 4 grid, [set(4, 0, 'red')] (column
    4 is outside the grid) overwrites the cell at the valid coordinate
    (0, 1), flat index 4. *)
Lemma set_out_of_grid_overwrites_cell :
  data (init cfg44) !! 4 = Some "rgb(50,50,50)"%string /\
  data (snd (set cfg44 4 0 (JStr "red") (init cfg44))) !! (1 * 4 + 0) = Some "red"%string.
Proof. vm_compute. split; reflexivity. Qed.

(** ** C5: colour arguments of other types *)

(** Claim C5 (code_bug).  How [set] treats colour arguments that are not a
    string, a channel triple or omitted.  A number, a boolean or a function
    (a [typeof] other than 'object', 'string' and 'undefined') takes the
    silent [return].  The test [typeof color === 'object'] also catches
    values that are not arrays: [null] (whose [typeof] is 'object') and a
    plain object without a [join] method reach [color.join()] and raise a
    TypeError, and an array of any length is joined into ['rgb(...)'] and
    written with its index pushed. *)
Theorem set_color_argument_types cfg x y s :
  (forall b, set cfg x y (JBool b) s = (Ok tt, s)) /\
  (forall z, set cfg x y (JNum z) s = (Ok tt, s)) /\
  (forall src, set cfg x y (JFun src) s = (Ok tt, s)) /\
  (forall l,
     fst (set cfg x y (JArr l) s) = Ok tt /\
     data (snd (set cfg x y (JArr l) s)) !! (y * dot_width cfg + x)
       = Some (String.append "rgb(" (String.append (js_join l) ")")) /\
     dirtyIndicies (snd (set cfg x y (JArr l) s))
       = dirtyIndicies s ++ [y * dot_width cfg + x]) /\
  (exists e, set cfg x y JNull s = (Err e, s)) /\
  (exists e, set cfg x y JObj s = (Err e, s)).
Proof.
  split; [reflexivity|]. split; [reflexivity|]. split; [reflexivity|].
  split; [|split; eexists; reflexivity].
  intros l. cbn. rewrite lookup_insert_eq. auto.
Qed.

(** Claim C5 (failing input).  [set(0, 0, [1, 2])] (a pair, not a channel
    triple) writes ['rgb(1,2)'], and [set(0, 0, null)] raises. *)
Lemma set_non_triple_not_ignored :
  data (snd (set cfg44 0 0 (JArr [JNum 1; JNum 2]) (init cfg44))) !! 0 = Some "rgb(1,2)"%string /\
  exists e, fst (set cfg44 0 0 JNull (init cfg44)) = Err e.
Proof. split; [vm_compute; reflexivity | eexists; reflexivity]. Qed.

(** ** C6: [set] then read back *)

(** Claim C6.  For an in-grid coordinate and a valid colour, after
    [set(x, y, c)] the cell at [y * width + x] holds the resolved colour and
    its index is in the pending dirty collection. *)
Theorem set_stores_resolved_color cfg x y c s
    (Hx : 0 <= x < dot_width cfg) (Hy : 0 <= y < dot_height cfg)
    (Hc : valid_color c = true) :
  data (snd (set cfg x y c s)) !! (y * dot_width cfg + x) = Some (resolved_color cfg c) /\
  In (y * dot_width cfg + x) (dirtyIndicies (snd (set cfg x y c s))).
Proof.
  destruct c; try discriminate Hc; cbn;
    rewrite lookup_insert_eq; split; try reflexivity;
    apply in_or_app; right; left; reflexivity.
Qed.

Lemma set_stores_resolved_color_witness :
  data (snd (set cfg44 1 1 (JStr "rgb(1,2,3)") (init cfg44))) !! (1 * dot_width cfg44 + 1)
    = Some (resolved_color cfg44 (JStr "rgb(1,2,3)")) /\
  In (1 * dot_width cfg44 + 1) (dirtyIndicies (snd (set cfg44 1 1 (JStr "rgb(1,2,3)") (init cfg44)))).
Proof.
  apply (set_stores_resolved_color cfg44 1 1 (JStr "rgb(1,2,3)") (init cfg44));
    simpl; [lia | lia | reflexivity].
Defined.

(** ** Write footprint of [draw] *)

Lemma only_writes_refl K s : only_writes K s s.
Proof. split; [auto | exists []; rewrite app_nil_r; auto]. Qed.

Lemma only_writes_trans K s1 s2 s3 :
  only_writes K s1 s2 -> only_writes K s2 s3 -> only_writes K s1 s3.
Proof.
  intros [H1 (a1 & E1 & F1)] [H2 (a2 & E2 & F2)]. split.
  - intros k. destruct (H2 k) as [->|]; auto.
  - exists (a1 ++ a2). rewrite E2, E1, app_assoc. split; [reflexivity|].
    apply Forall_app; auto.
Qed.

Lemma array_write_data k v s : data (array_write k v s) = <[k := v]> (data s).
Proof. reflexivity. Qed.

Lemma array_write_indices k v s : dirtyIndicies (array_write k v s) = dirtyIndicies s.
Proof. reflexivity. Qed.

Lemma push_dirty_data k s : data (push_dirty k s) = data s.
Proof. reflexivity. Qed.

Lemma push_dirty_indices k s : dirtyIndicies (push_dirty k s) = dirtyIndicies s ++ [k].
Proof. reflexivity. Qed.

Lemma set_write_only_writes K cfg x y v s :
  K (y * dot_width cfg + x) -> only_writes K s (snd (set_write cfg x y v s)).
Proof.
  intros HK. unfold set_write, modify, only_writes. cbn [snd].
  rewrite push_dirty_data, array_write_data, push_dirty_indices, array_write_indices. split.
  - intros k. destruct (decide (k = y * dot_width cfg + x)) as [->|Hne].
    + right. exact HK.
    + left. rewrite lookup_insert_ne; congruence.
  - exists [y * dot_width cfg + x]. split; [reflexivity|]. repeat constructor. exact HK.
Qed.

Lemma set_only_writes K cfg x y c s :
  K (y * dot_width cfg + x) -> only_writes K s (snd (set cfg x y c s)).
Proof.
  intros HK. destruct c; try apply only_writes_refl; apply set_write_only_writes; exact HK.
Qed.

Lemma bind_snd {A B} (m : M A) (f : A -> M B) s :
  snd ((m ≫= f) s) = match m s with (Ok a, s1) => snd (f a s1) | (Err _, s1) => s1 end.
Proof. unfold mbind, M_bind. destruct (m s) as [[a|e] s1]; reflexivity. Qed.

Lemma bind_fst {A B} (m : M A) (f : A -> M B) s :
  fst ((m ≫= f) s) = match m s with (Ok a, s1) => fst (f a s1) | (Err e, _) => Err e end.
Proof. unfold mbind, M_bind. destruct (m s) as [[a|e] s1]; reflexivity. Qed.

Lemma draw_cols_only_writes K cfg x py j bits color fill hp s :
  (forall j' b, nth_error bits j' = Some b ->
     0 <= x + (j + Z.of_nat j') < dot_width cfg -> (b =? 1) || fill = true ->
     K (py * dot_width cfg + (x + (j + Z.of_nat j')))) ->
  only_writes K s (snd (draw_cols cfg x py j bits color fill hp s)).
Proof.
  revert j hp s; induction bits as [|b bits IH]; intros j hp s HK;
    [apply only_writes_refl|].
  assert (IH' : forall j0 hp0 s0, j0 = j + 1 ->
            only_writes K s0 (snd (draw_cols cfg x py j0 bits color fill hp0 s0))).
  { intros j0 hp0 s0 ->. apply IH. intros j' b' Hn Hb Hs.
    specialize (HK (S j') b' Hn). rewrite Nat2Z.inj_succ in HK.
    replace (j + 1 + Z.of_nat j') with (j + Z.succ (Z.of_nat j')) in * by lia.
    auto. }
  cbn [draw_cols].
  destruct ((0 <=? x + j) && (x + j <? dot_width cfg)) eqn:Hin; [|auto].
  destruct ((b =? 1) || fill) eqn:Hsh; [|auto].
  rewrite bind_snd.
  assert (Hset : only_writes K s (snd (set cfg (x + j) py (if b =? 1 then color else JUndefined) s))).
  { apply set_only_writes. specialize (HK O b eq_refl). cbn in HK.
    rewrite Z.add_0_r in HK. apply HK; [lia|assumption]. }
  destruct (set cfg (x + j) py _ s) as [[a|e] s1]; cbn in *; [|assumption].
  eapply only_writes_trans; [exact Hset | auto].
Qed.

Lemma draw_rows_only_writes K cfg x y i shape color fill hp s :
  (forall i' bits j' b, nth_error shape i' = Some (RArr bits) -> nth_error bits j' = Some b ->
     0 <= y + (i + Z.of_nat i') < dot_height cfg -> 0 <= x + Z.of_nat j' < dot_width cfg ->
     (b =? 1) || fill = true ->
     K ((y + (i + Z.of_nat i')) * dot_width cfg + (x + Z.of_nat j'))) ->
  only_writes K s (snd (draw_rows cfg x y i shape color fill hp s)).
Proof.
  revert i hp s; induction shape as [|r shape IH]; intros i hp s HK;
    [apply only_writes_refl|].
  assert (IH' : forall hp0 s0,
            only_writes K s0 (snd (draw_rows cfg x y (i + 1) shape color fill hp0 s0))).
  { intros hp0 s0. apply IH. intros i' bits j' b Hr Hb Hy Hx Hs.
    specialize (HK (S i') bits j' b Hr Hb). rewrite Nat2Z.inj_succ in HK.
    replace (i + 1 + Z.of_nat i') with (i + Z.succ (Z.of_nat i')) in * by lia.
    auto. }
  cbn [draw_rows].
  destruct ((0 <=? y + i) && (y + i <? dot_height cfg)) eqn:Hin; [|auto].
  destruct r as [bits|n]; [|auto].
  rewrite bind_snd.
  pose proof (draw_cols_only_writes K cfg x (y + i) 0 bits color fill hp s) as Hc.
  destruct (draw_cols cfg x (y + i) 0 bits color fill hp s) as [[hp'|e] s1]; cbn in Hc |- *.
  - eapply only_writes_trans; [apply Hc | apply IH'].
    intros j' b Hb Hx Hs. specialize (HK O bits j' b eq_refl Hb).
    rewrite Z.add_0_l. rewrite Z.add_0_r in HK. apply HK; [lia | lia | assumption].
  - apply Hc. intros j' b Hb Hx Hs. specialize (HK O bits j' b eq_refl Hb).
    rewrite Z.add_0_l. rewrite Z.add_0_r in HK. apply HK; [lia | lia | assumption].
Qed.

Lemma flat_index_inj w r c r' c' :
  0 <= c < w -> 0 <= c' < w -> r * w + c = r' * w + c' -> r = r' /\ c = c'.
Proof.
  intros Hc Hc' E.
  assert (r = r') by nia. subst. split; [reflexivity | lia].
Qed.

(** ** C10: [draw] writes only in-grid footprint cells *)

(** Claim C10.  Whatever [x] and [y] (negative or beyond the grid) and
    whether or not a [set] inside it raises, [draw] changes the backing
    store only at in-grid cells of the shape's footprint, all within
    [0, width * height), and pushes only such indices onto the dirty
    collection. *)
Theorem draw_writes_in_grid_footprint cfg x y shape opts s :
  (forall k, data (snd (draw cfg x y shape opts s)) !! k = data s !! k \/
             (footprint_cell cfg x y shape k /\ 0 <= k < dot_width cfg * dot_height cfg)) /\
  exists added,
    dirtyIndicies (snd (draw cfg x y shape opts s)) = dirtyIndicies s ++ added /\
    Forall (fun k => footprint_cell cfg x y shape k /\ 0 <= k < dot_width cfg * dot_height cfg) added.
Proof.
  apply (draw_rows_only_writes
           (fun k => footprint_cell cfg x y shape k /\ 0 <= k < dot_width cfg * dot_height cfg)).
  intros i' bits j' b Hr Hb Hy Hx _. rewrite Z.add_0_l in *. split.
  - exists i', j', bits. repeat split; try assumption; try lia.
    apply nth_error_Some. congruence.
  - nia.
Qed.

(** ** C8: [draw] without fill leaves unlit cells alone *)

(** Claim C8.  With [fill] false, the in-grid cell under a bit other than 1
    (in particular a 0 bit) keeps its stored colour, and its index is not
    among the indices [draw] pushes onto the dirty collection. *)
Theorem draw_nofill_keeps_unlit_cells cfg x y shape color s (i j : nat) bits b
    (Hr : nth_error shape i = Some (RArr bits)) (Hb : nth_error bits j = Some b)
    (Hb1 : b <> 1)
    (Hy : 0 <= y + Z.of_nat i < dot_height cfg) (Hx : 0 <= x + Z.of_nat j < dot_width cfg) :
  data (snd (draw cfg x y shape (DrawOptions color false) s))
    !! ((y + Z.of_nat i) * dot_width cfg + (x + Z.of_nat j))
  = data s !! ((y + Z.of_nat i) * dot_width cfg + (x + Z.of_nat j)) /\
  exists added,
    dirtyIndicies (snd (draw cfg x y shape (DrawOptions color false) s)) = dirtyIndicies s ++ added /\
    ~ In ((y + Z.of_nat i) * dot_width cfg + (x + Z.of_nat j)) added.
Proof.
  set (k := (y + Z.of_nat i) * dot_width cfg + (x + Z.of_nat j)).
  destruct (draw_rows_only_writes (fun k' => k' <> k) cfg x y 0 shape color false false s)
    as [Hd (added & Ha & Hf)].
  - intros i' bits' j' b' Hr' Hb' Hy' Hx' Hs. rewrite Z.add_0_l in *.
    rewrite orb_false_r in Hs. apply Z.eqb_eq in Hs. subst b'.
    intros E. unfold k in E.
    destruct (flat_index_inj (dot_width cfg) _ _ _ _ Hx' Hx E) as [E1 E2].
    assert (i' = i) by lia. assert (j' = j) by lia. subst i' j'.
    rewrite Hr in Hr'. injection Hr' as <-. rewrite Hb in Hb'. injection Hb' as Eb.
    exact (Hb1 Eb).
  - split.
    + destruct (Hd k) as [E|E]; [exact E | congruence].
    + exists added. split; [exact Ha|]. intros Hin.
      rewrite List.Forall_forall in Hf. exact (Hf k Hin eq_refl).
Qed.

Lemma draw_nofill_keeps_unlit_cells_witness :
  data (snd (draw cfg44 0 0 [RArr [1; 0]] (DrawOptions (JStr "red") false) (init cfg44)))
    !! ((0 + Z.of_nat 0) * dot_width cfg44 + (0 + Z.of_nat 1))
  = data (init cfg44) !! ((0 + Z.of_nat 0) * dot_width cfg44 + (0 + Z.of_nat 1)) /\
  exists added,
    dirtyIndicies (snd (draw cfg44 0 0 [RArr [1; 0]] (DrawOptions (JStr "red") false) (init cfg44)))
      = dirtyIndicies (init cfg44) ++ added /\
    ~ In ((0 + Z.of_nat 0) * dot_width cfg44 + (0 + Z.of_nat 1)) added.
Proof.
  apply (draw_nofill_keeps_unlit_cells cfg44 0 0 [RArr [1; 0]] (JStr "red") (init cfg44)
           0 1 [1; 0] 0); simpl; try reflexivity; lia.
Defined.

(** ** The result of [draw] *)

Lemma draw_cols_result cfg x py j bits color fill hp s b :
  fst (draw_cols cfg x py j bits color fill hp s) = Ok b ->
  (b = true <-> hp = true \/
     exists (j' : nat) bit, nth_error bits j' = Some bit /\
       0 <= x + (j + Z.of_nat j') < dot_width cfg /\ (bit =? 1) || fill = true).
Proof.
  revert j hp s; induction bits as [|b0 bits IH]; intros j hp s Hres.
  - cbn in Hres. injection Hres as ->. split; [auto|].
    intros [H|(j' & bit & Hn & _)]; [exact H|]. destruct j'; discriminate Hn.
  - (* a position of [b0 :: bits] is either [b0] at [j] or one of [bits] *)
    assert (Hshift : forall hp0,
      (hp0 = true \/ exists (j' : nat) bit, nth_error bits j' = Some bit /\
         0 <= x + (j + 1 + Z.of_nat j') < dot_width cfg /\ (bit =? 1) || fill = true) <->
      (hp0 = true \/ exists (j' : nat) bit, nth_error bits j' = Some bit /\
         0 <= x + (j + Z.of_nat (S j')) < dot_width cfg /\ (bit =? 1) || fill = true)).
    { intros hp0. split; intros [H|(j' & bit & Hn & Hb & Hs)]; auto; right;
        exists j', bit; repeat split; auto; lia. }
    cbn [draw_cols] in Hres.
    destruct ((0 <=? x + j) && (x + j <? dot_width cfg)) eqn:Hin;
      [destruct ((b0 =? 1) || fill) eqn:Hsh|].
    + rewrite bind_fst in Hres.
      destruct (set cfg (x + j) py _ s) as [[a|e] s1]; [|discriminate Hres].
      apply IH in Hres. split; intros _; [|apply Hres; left; reflexivity].
      right. exists O, b0. cbn. rewrite Z.add_0_r.
      apply andb_true_iff in Hin as [H1 H2]. apply Z.leb_le in H1. apply Z.ltb_lt in H2.
      repeat split; auto; lia.
    + apply IH in Hres. rewrite Hres, Hshift. split.
      * intros [H|(j' & bit & Hn & Hb & Hs)]; [now left|right]. now exists (S j'), bit.
      * intros [H|([|j'] & bit & Hn & Hb & Hs)]; [now left| |right; now exists j', bit].
        cbn in Hn. injection Hn as <-. rewrite Hsh in Hs. discriminate Hs.
    + apply IH in Hres. rewrite Hres, Hshift. split.
      * intros [H|(j' & bit & Hn & Hb & Hs)]; [now left|right]. now exists (S j'), bit.
      * intros [H|([|j'] & bit & Hn & Hb & Hs)]; [now left| |right; now exists j', bit].
        exfalso. cbn in Hb. rewrite Z.add_0_r in Hb.
        apply andb_false_iff in Hin as [H|H]; [apply Z.leb_gt in H | apply Z.ltb_ge in H]; lia.
Qed.

Lemma draw_rows_result cfg x y i shape color fill hp s b :
  fst (draw_rows cfg x y i shape color fill hp s) = Ok b ->
  (b = true <-> hp = true \/
     exists (i' j' : nat) bits bit,
       nth_error shape i' = Some (RArr bits) /\ nth_error bits j' = Some bit /\
       0 <= y + (i + Z.of_nat i') < dot_height cfg /\ 0 <= x + Z.of_nat j' < dot_width cfg /\
       (bit =? 1) || fill = true).
Proof.
  revert i hp s; induction shape as [|r shape IH]; intros i hp s Hres.
  - cbn in Hres. injection Hres as ->. split; [auto|].
    intros [H|(i' & j' & bits & bit & Hn & _)]; [exact H|]. destruct i'; discriminate Hn.
  - cbn [draw_rows] in Hres.
    destruct ((0 <=? y + i) && (y + i <? dot_height cfg)) eqn:Hin.
    + apply andb_true_iff in Hin as [Hi1 Hi2].
      apply Z.leb_le in Hi1. apply Z.ltb_lt in Hi2.
      destruct r as [bits|n].
      * rewrite bind_fst in Hres.
        pose proof (draw_cols_result cfg x (y + i) 0 bits color fill hp s) as Hc.
        destruct (draw_cols cfg x (y + i) 0 bits color fill hp s) as [[hp'|e] s1];
          [|discriminate Hres].
        specialize (Hc hp' eq_refl). apply IH in Hres. rewrite Hres, Hc. split.
        -- intros [[H|(j' & bit & Hn & Hx & Hs)]|(i' & j' & bits' & bit & Hn & Hb & Hy & Hx & Hs)].
           ++ now left.
           ++ right. exists O, j', bits, bit. cbn. repeat split; auto; lia.
           ++ right. exists (S i'), j', bits', bit. cbn. repeat split; auto; lia.
        -- intros [H|([|i'] & j' & bits' & bit & Hn & Hb & Hy & Hx & Hs)].
           ++ now left; left.
           ++ cbn in Hn. injection Hn as <-. left; right.
              exists j', bit. repeat split; auto; lia.
           ++ right. exists i', j', bits', bit. cbn in Hn. repeat split; auto; lia.
      * apply IH in Hres. rewrite Hres. split.
        -- intros [H|(i' & j' & bits' & bit & Hn & Hb & Hy & Hx & Hs)]; [now left|].
           right. exists (S i'), j', bits', bit. cbn. repeat split; auto; lia.
        -- intros [H|([|i'] & j' & bits' & bit & Hn & Hb & Hy & Hx & Hs)]; [now left| |].
           ++ discriminate Hn.
           ++ right. exists i', j', bits', bit. cbn in Hn. repeat split; auto; lia.
    + apply IH in Hres. rewrite Hres. split.
      * intros [H|(i' & j' & bits' & bit & Hn & Hb & Hy & Hx & Hs)]; [now left|].
        right. exists (S i'), j', bits', bit. cbn. repeat split; auto; lia.
      * intros [H|([|i'] & j' & bits' & bit & Hn & Hb & Hy & Hx & Hs)]; [now left| |].
        -- exfalso. rewrite Z.add_0_r in Hy.
           apply andb_false_iff in Hin as [H|H]; [apply Z.leb_gt in H | apply Z.ltb_ge in H]; lia.
        -- right. exists i', j', bits', bit. cbn in Hn. repeat split; auto; lia.
Qed.

(** ** C4: what the boolean of [draw] reports *)

(** Claim C4 (corrected).  When [draw] returns, its boolean is true iff at
    least one in-grid position of the shape was written: one holding a lit
    bit (1) or, with [fill] true, any bit.  So it is false for an empty
    shape, a shape fully out of the grid, or an unlit shape with [fill]
    false, but true for an unlit shape with an in-grid position when [fill]
    is true. *)
Theorem draw_result_iff_written cfg x y shape opts s b
    (H : fst (draw cfg x y shape opts s) = Ok b) :
  b = true <->
  exists (i j : nat) bits bit,
    nth_error shape i = Some (RArr bits) /\ nth_error bits j = Some bit /\
    0 <= y + Z.of_nat i < dot_height cfg /\ 0 <= x + Z.of_nat j < dot_width cfg /\
    (bit = 1 \/ opt_fill opts = true).
Proof.
  apply draw_rows_result in H. rewrite H. split.
  - intros [Hf|(i & j & bits & bit & Hn & Hb & Hy & Hx & Hs)]; [discriminate Hf|].
    exists i, j, bits, bit. do 4 (split; [auto; lia|]).
    apply orb_true_iff in Hs as [Hs|Hs]; [left; apply Z.eqb_eq|right]; assumption.
  - intros (i & j & bits & bit & Hn & Hb & Hy & Hx & Hs). right.
    exists i, j, bits, bit. do 4 (split; [auto; lia|]).
    apply orb_true_iff. destruct Hs as [->|Hs]; [left; reflexivity | right; exact Hs].
Qed.

Lemma draw_result_iff_written_witness :
  true = true <->
  exists (i j : nat) bits bit,
    nth_error [RArr [0]] i = Some (RArr bits) /\ nth_error bits j = Some bit /\
    0 <= 0 + Z.of_nat i < dot_height cfg44 /\ 0 <= 0 + Z.of_nat j < dot_width cfg44 /\
    (bit = 1 \/ opt_fill (DrawOptions JUndefined true) = true).
Proof.
  apply (draw_result_iff_written cfg44 0 0 [RArr [0]] (DrawOptions JUndefined true)
           (init cfg44) true).
  vm_compute. reflexivity.
Defined.

(** Claim C4 (counterexample).  With [fill] true, drawing the unlit shape
    [[0]] at (0, 0) returns true although no lit bit was plotted. *)
Lemma draw_unlit_fill_returns_true :
  fst (draw cfg44 0 0 [RArr [0]] (DrawOptions (JStr "white") true) (init cfg44)) = Ok true.
Proof. vm_compute. reflexivity. Qed.

(** ** [rect] inside the grid *)



Lemma rect_inner_data cfg x y w h i c s n j k :
  valid_color c = true ->
  data (snd (rect_inner cfg n x y w h i j c s)) !! k =
  if existsb (fun j' => on_border x y w h i j' && (k =? j' * dot_width cfg + i)) (zseq j n)
  then Some (resolved_color cfg c) else data s !! k.
Proof.
  intros Hc. revert j s; induction n as [|n IH]; intros j s; [reflexivity|].
  cbn [rect_inner zseq existsb]. rewrite bind_snd.
  destruct (on_border x y w h i j) eqn:Hb; cbn [andb orb].
  - rewrite set_valid_color by exact Hc. rewrite set_write_data, IH.
    rewrite push_dirty_data, array_write_data.
    destruct (k =? j * dot_width cfg + i) eqn:Ek.
    + apply Z.eqb_eq in Ek as ->. rewrite lookup_insert_eq. destruct existsb; reflexivity.
    + apply Z.eqb_neq in Ek. rewrite lookup_insert_ne by congruence. reflexivity.
  - apply IH.
Qed.

Lemma rect_inner_ok cfg x y w h i c s n j :
  valid_color c = true -> fst (rect_inner cfg n x y w h i j c s) = Ok tt.
Proof.
  intros Hc. revert j s; induction n as [|n IH]; intros j s; [reflexivity|].
  cbn [rect_inner]. rewrite bind_fst.
  destruct (on_border x y w h i j); [rewrite set_valid_color by exact Hc|]; apply IH.
Qed.

Lemma rect_outer_data cfg x y w h c s n i k :
  valid_color c = true ->
  data (snd (rect_outer cfg n x y w h i c s)) !! k =
  if existsb (fun i' =>
       existsb (fun j' => on_border x y w h i' j' && (k =? j' * dot_width cfg + i'))
               (zseq y (Z.to_nat h))) (zseq i n)
  then Some (resolved_color cfg c) else data s !! k.
Proof.
  intros Hc. revert i s; induction n as [|n IH]; intros i s; [reflexivity|].
  cbn [rect_outer zseq existsb]. rewrite bind_snd.
  pose proof (rect_inner_data cfg x y w h i c s (Z.to_nat h) y k Hc) as Hi.
  destruct (rect_inner cfg (Z.to_nat h) x y w h i y c s) as [[a|e] s1] eqn:E.
  - cbn in Hi. rewrite IH, Hi.
    destruct existsb; cbn [orb]; [destruct existsb|]; reflexivity.
  - exfalso. pose proof (rect_inner_ok cfg x y w h i c s (Z.to_nat h) y Hc) as Hok.
    rewrite E in Hok. discriminate Hok.
Qed.

Lemma existsb_zseq (f : Z -> bool) j n :
  existsb f (zseq j n) = true <-> exists z, j <= z < j + Z.of_nat n /\ f z = true.
Proof.
  revert j; induction n as [|n IH]; intros j; cbn [zseq existsb].
  - split; [discriminate | intros (z & Hz & _); lia].
  - rewrite orb_true_iff, IH. split.
    + intros [H|(z & Hz & H)]; [exists j | exists z]; split; auto; lia.
    + intros (z & Hz & H). destruct (decide (z = j)) as [->|Hne]; [now left|].
      right. exists z. split; auto; lia.
Qed.

(** ** C9: [rect] paints the border of its box *)

(** Claim C9 (corrected).  For a box within the grid's columns
    ([0 <= x], [x + w <= width]) and a valid colour, [rect(x, y, w, h, c)]
    paints exactly the grid cells on the border of the box (top row, bottom
    row, left column, right column) with the resolved colour, and every other
    grid cell, the interior included, keeps its stored colour.  The box may
    overhang the top or the bottom of the grid: those rows land at negative or
    past-the-grid flat indices and touch no grid cell. *)
Theorem rect_in_grid_paints_border cfg x y w h c s
    (Hx : 0 <= x) (Hxw : x + w <= dot_width cfg)
    (Hc : valid_color c = true) (i j : Z)
    (Hi : 0 <= i < dot_width cfg) (Hj : 0 <= j < dot_height cfg) :
  data (snd (rect cfg x y w h c s)) !! (j * dot_width cfg + i) =
  if (x <=? i) && (i <? x + w) && (y <=? j) && (j <? y + h) &&
     ((j =? y) || (j =? y + h - 1) || (i =? x) || (i =? x + w - 1))
  then Some (resolved_color cfg c)
  else data s !! (j * dot_width cfg + i).
Proof.
  unfold rect. rewrite rect_outer_data by exact Hc.
  match goal with |- (if ?e1 then _ else _) = (if ?e2 then _ else _) =>
    replace e1 with e2; [reflexivity|] end.
  apply eq_true_iff_eq. rewrite existsb_zseq. split.
  - intros Hb. repeat rewrite andb_true_iff in Hb.
    destruct Hb as ((((H1 & H2) & H3) & H4) & H5).
    apply Z.leb_le in H1, H3. apply Z.ltb_lt in H2, H4.
    exists i. split; [lia|]. apply existsb_zseq. exists j. split; [lia|].
    apply andb_true_iff. split; [exact H5 | apply Z.eqb_refl].
  - intros (i' & Hi' & Hb). apply existsb_zseq in Hb as (j' & Hj' & Hb).
    apply andb_true_iff in Hb as [Hbord Hk]. apply Z.eqb_eq in Hk.
    destruct (flat_index_inj (dot_width cfg) j i j' i') as [-> ->]; [lia | lia | exact Hk|].
    repeat rewrite andb_true_iff.
    repeat split; [apply Z.leb_le | apply Z.ltb_lt | apply Z.leb_le | apply Z.ltb_lt | exact Hbord];
      lia.
Qed.

Lemma rect_in_grid_paints_border_witness :
  data (snd (rect cfg44 0 0 3 3 (JStr "blue") (init cfg44))) !! (1 * dot_width cfg44 + 1) =
  if (0 <=? 1) && (1 <? 0 + 3) && (0 <=? 1) && (1 <? 0 + 3) &&
     ((1 =? 0) || (1 =? 0 + 3 - 1) || (1 =? 0) || (1 =? 0 + 3 - 1))
  then Some (resolved_color cfg44 (JStr "blue"))
  else data (init cfg44) !! (1 * dot_width cfg44 + 1).
Proof.
  apply (rect_in_grid_paints_border cfg44 0 0 3 3 (JStr "blue") (init cfg44));
    simpl; try reflexivity; lia.
Defined.

(** Claim C9 (counterexample).  On a 4 x 4 grid, [rect(0, 0, 6, 4, 'blue')]
    (a box wider than the grid) paints index 5, the cell (1, 1), which is
    inside the box and not on its border: the right column x = 5 wraps onto
    the next row. *)
Lemma rect_wide_box_paints_interior :
  on_border 0 0 6 4 1 1 = false /\
  data (init cfg44) !! 5 = Some "rgb(50,50,50)"%string /\
  data (snd (rect cfg44 0 0 6 4 (JStr "blue") (init cfg44))) !! (1 * 4 + 1) = Some "blue"%string.
Proof. vm_compute. repeat split. Qed.

(** ** [print] *)

Lemma cache_glyph_rows g : glyph_rows (cache_glyph g) = glyph_rows g.
Proof. unfold cache_glyph. destruct (needs_width g); reflexivity. Qed.

Lemma printed_positive (p : Z) (b : bool) :
  0 <= p -> (0 <? (if b then p + 1 else p)) = (0 <? p) || b /\ 0 <= (if b then p + 1 else p).
Proof.
  intros Hp. destruct b; rewrite ?orb_true_r, ?orb_false_r; split; lia.
Qed.

Lemma print_loop_sound cfg text cx y opts f p s f' p' s' :
  0 <= p -> print_loop cfg text cx y opts f p s = (Ok (f', p'), s') ->
  exists b, print_spec cfg y opts cx text f s f' s' b /\ (0 <? p') = (0 <? p) || b.
Proof.
  revert cx f p s; induction text as [|c text IH]; intros cx f p s Hp Hrun.
  - cbn in Hrun. injection Hrun as <- <- <-. exists false.
    split; [constructor | rewrite orb_false_r; reflexivity].
  - cbn [print_loop] in Hrun.
    destruct (cx <=? dot_width cfg) eqn:Hle.
    + apply Z.leb_le in Hle.
      destruct (font_lookup f c) as [g|] eqn:Hg.
      * unfold mbind, M_bind in Hrun.
        assert (Hrows : glyph_rows (if needs_width g then updateFontData g else g) = glyph_rows g)
          by exact (cache_glyph_rows g).
        rewrite Hrows in Hrun.
        destruct (draw cfg cx y (glyph_rows g) opts s) as [[b1|e] s1] eqn:Hd;
          [|discriminate Hrun].
        destruct (printed_positive p b1 Hp) as [Hp1 Hp1'].
        destruct (IH _ _ _ _ Hp1' Hrun) as (b2 & Hspec & Hb2).
        exists (b1 || b2). split.
        -- eapply ps_draw; eauto.
        -- rewrite Hb2, Hp1, orb_assoc. reflexivity.
      * destruct (IH _ _ _ _ Hp Hrun) as (b & Hspec & Hb).
        exists b. split; [apply ps_skip; assumption | exact Hb].
    + apply Z.leb_gt in Hle. injection Hrun as <- <- <-. exists false.
      split; [apply ps_stop; exact Hle | rewrite orb_false_r; reflexivity].
Qed.

Lemma print_loop_complete cfg y opts cx text f s f' s' b p :
  print_spec cfg y opts cx text f s f' s' b -> 0 <= p ->
  exists p', print_loop cfg text cx y opts f p s = (Ok (f', p'), s') /\
             (0 <? p') = (0 <? p) || b.
Proof.
  intros Hspec. revert p.
  induction Hspec as [cx f s | cx c text f s Hlt | cx c text f s f' s' b Hle Hg Hspec IH
                     | cx c text f s g s1 b1 f' s' b2 Hle Hg Hd Hspec IH]; intros p Hp.
  - exists p. split; [reflexivity | rewrite orb_false_r; reflexivity].
  - exists p. split; [|rewrite orb_false_r; reflexivity].
    cbn [print_loop]. apply Z.leb_gt in Hlt. rewrite Hlt. reflexivity.
  - destruct (IH p Hp) as (p' & Hrun & Hb). exists p'. split; [|exact Hb].
    cbn [print_loop]. apply Z.leb_le in Hle. rewrite Hle, Hg. exact Hrun.
  - destruct (printed_positive p b1 Hp) as [Hp1 Hp1'].
    destruct (IH _ Hp1') as (p' & Hrun & Hb). exists p'. split.
    + cbn [print_loop]. apply Z.leb_le in Hle. rewrite Hle, Hg.
      unfold mbind, M_bind.
      assert (Hrows : glyph_rows (if needs_width g then updateFontData g else g) = glyph_rows g)
        by exact (cache_glyph_rows g).
      rewrite Hrows, Hd. exact Hrun.
    + rewrite Hb, Hp1, orb_assoc. reflexivity.
Qed.

Lemma print_loop_empty_font cfg text cx y opts p s :
  print_loop cfg text cx y opts [] p s = (Ok ([], p), s).
Proof.
  revert cx; induction text as [|c text IH]; intros cx; [reflexivity|].
  cbn [print_loop font_lookup]. destruct (cx <=? dot_width cfg); [apply IH | reflexivity].
Qed.

(** ** C7: [print] *)

(** Claim C7.  A call of [print] returns [(font', b)] with state [s'] exactly
    when [print_spec] describes that run: a character without a glyph is
    skipped and the cursor stays, a present glyph is drawn and the cursor
    advances by its width plus one whatever the draw reported, and [b] is
    true iff some draw returned true.  With an empty font, [print] returns
    false and leaves the whole state, every cell included, unchanged. *)
Theorem print_follows_spec cfg x y text f color fill s :
  (forall f' s' b,
     print cfg x y text f color fill s = (Ok (f', b), s') <->
     print_spec cfg y (DrawOptions color fill) x (list_ascii_of_string text) f s f' s' b) /\
  print cfg x y text [] color fill s = (Ok ([], false), s).
Proof.
  split.
  - intros f' s' b. unfold print, mbind, M_bind. split.
    + destruct (print_loop cfg (list_ascii_of_string text) x y (DrawOptions color fill) f 0 s)
        as [[[f1 p1]|e] s1] eqn:Hrun; [|discriminate].
      intros Heq. cbn in Heq. injection Heq as <- <- <-.
      destruct (print_loop_sound _ _ _ _ _ _ _ _ _ _ _ (Z.le_refl 0) Hrun) as (b & Hspec & Hb).
      rewrite Hb. exact Hspec.
    + intros Hspec.
      destruct (print_loop_complete _ _ _ _ _ _ _ _ _ _ 0 Hspec (Z.le_refl 0)) as (p' & Hrun & Hb).
      rewrite Hrun. cbn. rewrite Hb. reflexivity.
  - unfold print, mbind, M_bind. rewrite print_loop_empty_font. reflexivity.
Qed.

(** ** C3: [updateFont] *)

(** Claim C3 (code_bug).  [updateFont] loops over [font[0 .. font.length)],
    but a font table is keyed by characters (as [print] reads it with
    [font[c]]) and has no [length]: the loop never runs and no glyph gets a
    width.  On the table [{'A': [[0,1,0],[1,1,1]]}], glyph 'A' stays without
    width although its computed width is 3. *)
Theorem updateFont_caches_nothing :
  (forall f, updateFont f = Ok f) /\
  updateFont [("A"%char, Glyph [RArr [0; 1; 0]; RArr [1; 1; 1]] None)]
    = Ok [("A"%char, Glyph [RArr [0; 1; 0]; RArr [1; 1; 1]] None)] /\
  glyph_width (updateFontData (Glyph [RArr [0; 1; 0]; RArr [1; 1; 1]] None)) = Some 3.
Proof. split; [intros f|split]; reflexivity. Qed.

(** ** The examples of the spec *)

Example rect_blue_example :
  map (fun k => data (snd (rect cfg44 0 0 3 3 (JStr "blue") (init cfg44))) !! k)
      [0; 1; 2; 4; 6; 8; 9; 10; 5]
  = map Some ["blue"; "blue"; "blue"; "blue"; "blue"; "blue"; "blue"; "blue";
              "rgb(50,50,50)"]%string.
Proof. vm_compute. reflexivity. Qed.

Example fill_red_example :
  map (fun k => data (snd (fill cfg44 0 0 2 2 (JStr "red") (init cfg44))) !! k)
      [0; 1; 4; 5; 2; 6]
  = map Some ["red"; "red"; "red"; "red"; "rgb(50,50,50)"; "rgb(50,50,50)"]%string.
Proof. vm_compute. reflexivity. Qed.

Example print_unknown_glyph_example :
  print cfg44 0 0 "Z" [] (JStr "white") false (init cfg44) = (Ok ([], false), init cfg44).
Proof. reflexivity. Qed.

(** * Further properties of the code *)

(** ** [clear] and the constructor *)

(** Case on every integer comparison in the goal, then close by arithmetic. *)
Ltac zcmp :=
  repeat match goal with
         | |- context [?a <=? ?b] => destruct (Z.leb_spec a b)
         | |- context [?a <? ?b] => destruct (Z.ltb_spec a b)
         end; cbn [andb orb]; try reflexivity; try lia.

Lemma clear_loop_lookup o n i d k :
  clear_loop o n i d !! k =
  if (i <=? k) && (k <? i + Z.of_nat n) then Some o else d !! k.
Proof.
  revert i d; induction n as [|n IH]; intros i d; cbn [clear_loop].
  - zcmp.
  - rewrite IH. destruct (decide (k = i)) as [->|Hne].
    + rewrite lookup_insert_eq. zcmp.
    + rewrite lookup_insert_ne by congruence. zcmp.
Qed.

(** [clear] sets every index of the array, [0 <= k < data.length], to the
    off colour, leaves every other key alone, sets the global dirty flag and
    keeps the pending dirty indices (it does not drain them). *)
Theorem clear_resets_cells cfg s k :
  data (snd (clear cfg s)) !! k =
    (if (0 <=? k) && (k <? data_length s) then Some (off cfg) else data s !! k) /\
  dirty (snd (clear cfg s)) = true /\
  dirtyIndicies (snd (clear cfg s)) = dirtyIndicies s /\
  data_length (snd (clear cfg s)) = data_length s.
Proof.
  cbn. rewrite clear_loop_lookup. repeat split. zcmp.
Qed.

(** A freshly constructed display holds the off colour at exactly the flat
    indices [0 <= k < width * height] (no other key), is fully dirty and has
    no pending dirty index. *)
Theorem init_all_off cfg k :
  data (init cfg) !! k =
    (if (0 <=? k) && (k <? dot_width cfg * dot_height cfg) then Some (off cfg) else None) /\
  dirty (init cfg) = true /\ dirtyIndicies (init cfg) = [] /\
  data_length (init cfg) = dot_width cfg * dot_height cfg.
Proof.
  unfold init. cbn. rewrite clear_loop_lookup. repeat split. zcmp.
Qed.

(** ** [fill] *)

Lemma fill_inner_data cfg i c s n j k :
  valid_color c = true ->
  fst (fill_inner cfg n i j c s) = Ok tt /\
  data (snd (fill_inner cfg n i j c s)) !! k =
  if existsb (fun j' => k =? j' * dot_width cfg + i) (zseq j n)
  then Some (resolved_color cfg c) else data s !! k.
Proof.
  intros Hc. revert j s; induction n as [|n IH]; intros j s; [split; reflexivity|].
  cbn [fill_inner zseq existsb]. rewrite bind_snd, bind_fst.
  rewrite set_valid_color by exact Hc. rewrite set_write_data.
  destruct (IH (j + 1) (push_dirty (j * dot_width cfg + i)
              (array_write (j * dot_width cfg + i) (resolved_color cfg c) s))) as [IH1 IH2].
  split; [exact IH1|]. rewrite IH2, push_dirty_data, array_write_data.
  destruct (k =? j * dot_width cfg + i) eqn:Ek; cbn [orb].
  - apply Z.eqb_eq in Ek as ->. rewrite lookup_insert_eq. destruct existsb; reflexivity.
  - apply Z.eqb_neq in Ek. rewrite lookup_insert_ne by congruence. reflexivity.
Qed.

Lemma fill_outer_data cfg y h c s n i k :
  valid_color c = true ->
  data (snd (fill_outer cfg n i y h c s)) !! k =
  if existsb (fun i' => existsb (fun j' => k =? j' * dot_width cfg + i') (zseq y (Z.to_nat h)))
             (zseq i n)
  then Some (resolved_color cfg c) else data s !! k.
Proof.
  intros Hc. revert i s; induction n as [|n IH]; intros i s; [reflexivity|].
  cbn [fill_outer zseq existsb]. rewrite bind_snd.
  destruct (fill_inner_data cfg i c s (Z.to_nat h) y k Hc) as [Hok Hd].
  destruct (fill_inner cfg (Z.to_nat h) i y c s) as [[a|e] s1]; cbn in Hok, Hd;
    [|discriminate Hok].
  rewrite IH, Hd. destruct existsb; cbn [orb]; [destruct existsb|]; reflexivity.
Qed.

(** For a box inside the grid and a valid colour, [fill(x, y, w, h, c)]
    paints every grid cell of the box [x, x+w) x [y, y+h) with the resolved
    colour and leaves every other grid cell as it was. *)
Theorem fill_in_grid_paints_box cfg x y w h c s
    (Hx : 0 <= x) (Hxw : x + w <= dot_width cfg)
    (Hy : 0 <= y) (Hyh : y + h <= dot_height cfg)
    (Hc : valid_color c = true) (i j : Z)
    (Hi : 0 <= i < dot_width cfg) (Hj : 0 <= j < dot_height cfg) :
  data (snd (fill cfg x y w h c s)) !! (j * dot_width cfg + i) =
  if (x <=? i) && (i <? x + w) && (y <=? j) && (j <? y + h)
  then Some (resolved_color cfg c)
  else data s !! (j * dot_width cfg + i).
Proof.
  unfold fill. rewrite fill_outer_data by exact Hc.
  match goal with |- (if ?e1 then _ else _) = (if ?e2 then _ else _) =>
    replace e1 with e2; [reflexivity|] end.
  apply eq_true_iff_eq. rewrite existsb_zseq. split.
  - intros Hb. repeat rewrite andb_true_iff in Hb.
    destruct Hb as (((H1 & H2) & H3) & H4).
    apply Z.leb_le in H1, H3. apply Z.ltb_lt in H2, H4.
    exists i. split; [lia|]. apply existsb_zseq. exists j. split; [lia|]. apply Z.eqb_refl.
  - intros (i' & Hi' & Hb). apply existsb_zseq in Hb as (j' & Hj' & Hk).
    apply Z.eqb_eq in Hk.
    destruct (flat_index_inj (dot_width cfg) j i j' i') as [-> ->]; [lia | lia | exact Hk|].
    repeat rewrite andb_true_iff.
    repeat split; [apply Z.leb_le | apply Z.ltb_lt | apply Z.leb_le | apply Z.ltb_lt]; lia.
Qed.

Lemma fill_in_grid_paints_box_witness :
  data (snd (fill cfg44 1 1 2 3 (JStr "red") (init cfg44))) !! (3 * dot_width cfg44 + 2) =
  if (1 <=? 2) && (2 <? 1 + 2) && (1 <=? 3) && (3 <? 1 + 3)
  then Some (resolved_color cfg44 (JStr "red"))
  else data (init cfg44) !! (3 * dot_width cfg44 + 2).
Proof.
  apply (fill_in_grid_paints_box cfg44 1 1 2 3 (JStr "red") (init cfg44));
    simpl; try reflexivity; lia.
Defined.

(** ** [rect] of a thin box is [fill] *)

Lemma rect_inner_all_border cfg x y w h i c n j s :
  (forall m, (m < n)%nat -> on_border x y w h i (j + Z.of_nat m) = true) ->
  rect_inner cfg n x y w h i j c s = fill_inner cfg n i j c s.
Proof.
  revert j s; induction n as [|n IH]; intros j s Hb; [reflexivity|].
  cbn [rect_inner fill_inner]. unfold mbind, M_bind.
  specialize (Hb O ltac:(lia)) as Hb0. rewrite Z.add_0_r in Hb0. rewrite Hb0.
  destruct (set cfg i j c s) as [[a|e] s1]; [|reflexivity].
  apply IH. intros m Hm. replace (j + 1 + Z.of_nat m) with (j + Z.of_nat (S m)) by lia.
  apply Hb. lia.
Qed.

(** A box at most two cells wide or at most two cells high has no interior:
    [rect] on it behaves exactly as [fill], on every state and for every
    colour argument, errors included. *)
Theorem rect_thin_box_is_fill cfg x y w h c s (Hthin : w <= 2 \/ h <= 2) :
  rect cfg x y w h c s = fill cfg x y w h c s.
Proof.
  unfold rect, fill.
  assert (Hlen : forall n i0, (n <= Z.to_nat w)%nat -> i0 = x + Z.of_nat (Z.to_nat w - n) ->
            forall s0, rect_outer cfg n x y w h i0 c s0 = fill_outer cfg n i0 y h c s0).
  { induction n as [|n IH]; intros i0 Hn Hi0 s0; [reflexivity|].
    cbn [rect_outer fill_outer]. unfold mbind, M_bind.
    rewrite rect_inner_all_border.
    - destruct (fill_inner cfg (Z.to_nat h) i0 y c s0) as [[a|e] s1]; [|reflexivity].
      apply IH; lia.
    - intros m Hm. unfold on_border. zcmp. }
  apply Hlen; lia.
Qed.

Lemma rect_thin_box_is_fill_witness :
  rect cfg44 0 1 4 2 (JStr "blue") (init cfg44) = fill cfg44 0 1 4 2 (JStr "blue") (init cfg44).
Proof. apply (rect_thin_box_is_fill cfg44 0 1 4 2 (JStr "blue") (init cfg44)). lia. Defined.

(** ** [draw] with [fill] *)

Lemma set_valid_ok cfg x y c s : valid_color c = true -> fst (set cfg x y c s) = Ok tt.
Proof. intros Hc. rewrite set_valid_color by exact Hc. reflexivity. Qed.

Lemma draw_cols_ok cfg x py j bits c hp s :
  valid_color c = true -> exists b, fst (draw_cols cfg x py j bits c true hp s) = Ok b.
Proof.
  intros Hc. revert j hp s; induction bits as [|b0 bits IH]; intros j hp s; [eexists; reflexivity|].
  cbn [draw_cols]. rewrite orb_true_r.
  destruct (_ && _); [|apply IH].
  rewrite bind_fst.
  pose proof (set_valid_ok cfg (x + j) py (if b0 =? 1 then c else JUndefined) s) as Hs.
  destruct (set cfg (x + j) py _ s) as [[a|e] s1]; [apply IH|].
  cbn in Hs. discriminate Hs. destruct (b0 =? 1); [exact Hc | reflexivity].
Qed.

Lemma draw_cols_fill_cell cfg x py j bits c hp s (j0 : nat) b :
  valid_color c = true -> nth_error bits j0 = Some b ->
  0 <= x + (j + Z.of_nat j0) < dot_width cfg ->
  data (snd (draw_cols cfg x py j bits c true hp s)) !! (py * dot_width cfg + (x + (j + Z.of_nat j0)))
  = Some (if b =? 1 then resolved_color cfg c else off cfg).
Proof.
  intros Hc. revert j j0 hp s; induction bits as [|b0 bits IH]; intros j j0 hp s Hn Hx;
    [destruct j0; discriminate Hn|].
  cbn [draw_cols]. rewrite orb_true_r.
  destruct j0 as [|j0].
  - cbn in Hn. injection Hn as ->. rewrite Z.add_0_r in *.
    replace ((0 <=? x + j) && (x + j <? dot_width cfg)) with true by zcmp.
    rewrite bind_snd.
    assert (Hv : valid_color (if b =? 1 then c else JUndefined) = true)
      by (destruct (b =? 1); [exact Hc | reflexivity]).
    rewrite set_valid_color by exact Hv. rewrite set_write_data.
    set (s1 := push_dirty _ _).
    destruct (draw_cols_only_writes (fun k => k <> py * dot_width cfg + (x + j)) cfg x py (j + 1)
                bits c true true s1) as [Hd _].
    { intros j' b' _ _ _. lia. }
    destruct (Hd (py * dot_width cfg + (x + j))) as [E|E]; [|congruence].
    rewrite E. unfold s1. rewrite push_dirty_data, array_write_data, lookup_insert_eq.
    destruct (b =? 1); reflexivity.
  - cbn in Hn. replace (j + Z.of_nat (S j0)) with (j + 1 + Z.of_nat j0) in * by lia.
    destruct (_ && _); [|apply IH; assumption].
    rewrite bind_snd.
    pose proof (set_valid_ok cfg (x + j) py (if b0 =? 1 then c else JUndefined) s) as Hs.
    destruct (set cfg (x + j) py _ s) as [[a|e] s1]; [apply IH; assumption|].
    cbn in Hs. discriminate Hs. destruct (b0 =? 1); [exact Hc | reflexivity].
Qed.

Lemma draw_rows_ok cfg x y i shape c hp s :
  valid_color c = true -> exists b, fst (draw_rows cfg x y i shape c true hp s) = Ok b.
Proof.
  intros Hc. revert i hp s; induction shape as [|r shape IH]; intros i hp s;
    [eexists; reflexivity|].
  cbn [draw_rows].
  destruct (_ && _); [|apply IH].
  destruct r as [bits|n]; [|apply IH].
  rewrite bind_fst.
  destruct (draw_cols_ok cfg x (y + i) 0 bits c hp s Hc) as [b0 Hb0].
  destruct (draw_cols cfg x (y + i) 0 bits c true hp s) as [[a|e] s1];
    [apply IH | discriminate Hb0].
Qed.

Lemma draw_rows_fill_cell cfg x y i shape c hp s (i0 j0 : nat) bits b :
  valid_color c = true -> nth_error shape i0 = Some (RArr bits) -> nth_error bits j0 = Some b ->
  0 <= y + (i + Z.of_nat i0) < dot_height cfg -> 0 <= x + Z.of_nat j0 < dot_width cfg ->
  data (snd (draw_rows cfg x y i shape c true hp s))
    !! ((y + (i + Z.of_nat i0)) * dot_width cfg + (x + Z.of_nat j0))
  = Some (if b =? 1 then resolved_color cfg c else off cfg).
Proof.
  intros Hc. revert i i0 hp s; induction shape as [|r shape IH]; intros i i0 hp s Hr Hb Hy Hx;
    [destruct i0; discriminate Hr|].
  cbn [draw_rows].
  destruct i0 as [|i0].
  - cbn in Hr. injection Hr as ->. rewrite Z.add_0_r in *.
    replace ((0 <=? y + i) && (y + i <? dot_height cfg)) with true by zcmp.
    rewrite bind_snd.
    pose proof (draw_cols_fill_cell cfg x (y + i) 0 bits c hp s j0 b Hc Hb) as Hcell.
    rewrite Z.add_0_l in Hcell. specialize (Hcell Hx).
    destruct (draw_cols_ok cfg x (y + i) 0 bits c hp s Hc) as [b0 Hb0].
    destruct (draw_cols cfg x (y + i) 0 bits c true hp s) as [[a|e] s1];
      [|discriminate Hb0].
    cbn in Hcell.
    destruct (draw_rows_only_writes (fun k => k <> (y + i) * dot_width cfg + (x + Z.of_nat j0))
                cfg x y (i + 1) shape c true a s1) as [Hd _].
    { intros i' bits' j' b' _ _ Hy' Hx' _ E.
      apply flat_index_inj in E; [lia | lia | lia]. }
    destruct (Hd ((y + i) * dot_width cfg + (x + Z.of_nat j0))) as [E|E]; [|congruence].
    rewrite E. exact Hcell.
  - cbn in Hr. replace (i + Z.of_nat (S i0)) with (i + 1 + Z.of_nat i0) in * by lia.
    destruct (_ && _); [|apply IH; assumption].
    destruct r as [bits0|n]; [|apply IH; assumption].
    rewrite bind_snd.
    destruct (draw_cols_ok cfg x (y + i) 0 bits0 c hp s Hc) as [b0 Hb0].
    destruct (draw_cols cfg x (y + i) 0 bits0 c true hp s) as [[a|e] s1];
      [apply IH; assumption | discriminate Hb0].
Qed.

(** With [fill] set and a valid color, [draw] never fails, and every in-grid cell of the
    shape ends up lit (bit 1, resolved color) or unlit (any other bit, the [off] color). *)
Theorem draw_fill_sets_footprint cfg x y shape c s (i0 j0 : nat) bits b
    (Hc : valid_color c = true)
    (Hr : nth_error shape i0 = Some (RArr bits)) (Hb : nth_error bits j0 = Some b)
    (Hy : 0 <= y + Z.of_nat i0 < dot_height cfg) (Hx : 0 <= x + Z.of_nat j0 < dot_width cfg) :
  (exists r, fst (draw cfg x y shape (DrawOptions c true) s) = Ok r) /\
  data (snd (draw cfg x y shape (DrawOptions c true) s))
    !! ((y + Z.of_nat i0) * dot_width cfg + (x + Z.of_nat j0))
  = Some (if b =? 1 then resolved_color cfg c else off cfg).
Proof.
  unfold draw; cbn [opt_color opt_fill]. split.
  - apply draw_rows_ok. exact Hc.
  - pose proof (draw_rows_fill_cell cfg x y 0 shape c false s i0 j0 bits b Hc Hr Hb) as H.
    rewrite Z.add_0_l in H. exact (H Hy Hx).
Qed.

Lemma draw_fill_sets_footprint_witness :
  (exists r, fst (draw cfg44 1 2 [RArr [1; 0]; RArr [0; 1]] (DrawOptions (JArr [JNum 1; JNum 2; JNum 3]) true) (init cfg44)) = Ok r) /\
  data (snd (draw cfg44 1 2 [RArr [1; 0]; RArr [0; 1]] (DrawOptions (JArr [JNum 1; JNum 2; JNum 3]) true) (init cfg44)))
    !! ((2 + Z.of_nat 1) * dot_width cfg44 + (1 + Z.of_nat 0))
  = Some (if 0 =? 1 then resolved_color cfg44 (JArr [JNum 1; JNum 2; JNum 3]) else off cfg44).
Proof.
  apply (draw_fill_sets_footprint cfg44 1 2 [RArr [1; 0]; RArr [0; 1]] (JArr [JNum 1; JNum 2; JNum 3])
           (init cfg44) 1 0 [0; 1] 0); [reflexivity | reflexivity | reflexivity | cbn; lia | cbn; lia].
Defined.

(** ** What [painter] paints *)


Lemma fill_styles_app l1 l2 : fill_styles (l1 ++ l2) = fill_styles l1 ++ fill_styles l2.
Proof.
  induction l1 as [|o l1 IH]; [reflexivity|].
  destruct o; cbn; rewrite ?IH; reflexivity.
Qed.

Lemma emit_canvas_ops ops s : canvas_ops (emit ops s) = canvas_ops s ++ ops.
Proof. reflexivity. Qed.

Lemma updateLed_styles cfg i fl s :
  exists ops, snd (updateLed cfg i fl s) = emit ops s /\
  fill_styles ops = (if fl then [Some (background cfg)] else []) ++ [data s !! i].
Proof.
  eexists; split; [reflexivity|].
  destruct fl, (String.eqb (drawMode cfg) "circle"); reflexivity.
Qed.

Lemma full_repaint_loop_styles cfg n i s :
  exists ops, canvas_ops (snd (full_repaint_loop cfg n i s)) = canvas_ops s ++ ops /\
  fill_styles ops = map (fun k => data s !! k) (zseq i n).
Proof.
  revert i s; induction n as [|n IH]; intros i s.
  - exists []. split; [symmetry; apply app_nil_r | reflexivity].
  - cbn [full_repaint_loop]. rewrite bind_snd.
    change (updateLed cfg i false s) with (Ok tt, snd (updateLed cfg i false s)).
    destruct (updateLed_styles cfg i false s) as (ops1 & E1 & F1).
    destruct (IH (i + 1) (snd (updateLed cfg i false s))) as (ops2 & E2 & F2).
    exists (ops1 ++ ops2). split.
    + rewrite E2, E1, emit_canvas_ops, app_assoc. reflexivity.
    + rewrite fill_styles_app, F1, F2, E1. reflexivity.
Qed.

Lemma sparse_repaint_loop_styles cfg l s :
  exists ops, canvas_ops (snd (sparse_repaint_loop cfg l s)) = canvas_ops s ++ ops /\
  fill_styles ops = flat_map (fun k => [Some (background cfg); data s !! k]) l.
Proof.
  revert s; induction l as [|k l IH]; intros s.
  - exists []. split; [symmetry; apply app_nil_r | reflexivity].
  - cbn [sparse_repaint_loop]. rewrite bind_snd.
    change (updateLed cfg k true s) with (Ok tt, snd (updateLed cfg k true s)).
    destruct (updateLed_styles cfg k true s) as (ops1 & E1 & F1).
    destruct (IH (snd (updateLed cfg k true s))) as (ops2 & E2 & F2).
    exists (ops1 ++ ops2). split.
    + rewrite E2, E1, emit_canvas_ops, app_assoc. reflexivity.
    + rewrite fill_styles_app, F1, F2, E1. reflexivity.
Qed.

Lemma painter_styles cfg s :
  exists ops, canvas_ops (snd (painter cfg s)) = canvas_ops s ++ ops /\
  fill_styles ops =
    if dirty s then Some (background cfg) :: map (fun k => data s !! k) (zseq 0 (Z.to_nat (data_length s)))
    else flat_map (fun k => [Some (background cfg); data s !! k]) (dirtyIndicies s).
Proof.
  cbv [painter gets mbind M_bind mret M_ret modify id]. cbn beta iota.
  destruct (dirty s) eqn:Hd; cbn.
  - set (s0 := emit [SetFillStyle (Some (background cfg));
                     FillRect 0 0 (canvas_width cfg) (canvas_height cfg)] s).
    destruct (full_repaint_loop_styles cfg (Z.to_nat (data_length s)) 0 s0) as (ops & E & F).
    destruct (full_repaint_loop cfg (Z.to_nat (data_length s)) 0 s0) as [r s1]. cbn in E |- *.
    exists ([SetFillStyle (Some (background cfg));
             FillRect 0 0 (canvas_width cfg) (canvas_height cfg)] ++ ops).
    destruct r; cbn; (split; [rewrite E, <- app_assoc; reflexivity | rewrite F; reflexivity]).
  - destruct (length (dirtyIndicies s) =? 0)%nat eqn:Hl; cbn.
    + apply Nat.eqb_eq, length_zero_iff_nil in Hl. rewrite Hl.
      exists []. split; [symmetry; apply app_nil_r | reflexivity].
    + destruct (sparse_repaint_loop_styles cfg (dirtyIndicies s) s) as (ops & E & F).
      destruct (sparse_repaint_loop cfg (dirtyIndicies s) s) as [r s1]. cbn in E |- *.
      exists ops. destruct r; cbn; split; assumption.
Qed.

(** [painter] only appends to the canvas.  A full repaint (dirty flag set) first
    fills the whole canvas with the background, then sets the fill style to each
    stored colour in index order over the whole array; otherwise each dirty index
    is flushed with the background and then painted with its stored colour, in the
    order the indices were recorded (nothing at all when there are none). *)
Theorem painter_fill_styles cfg s :
  exists ops, canvas_ops (snd (painter cfg s)) = canvas_ops s ++ ops /\
  fill_styles ops =
    if dirty s then Some (background cfg) :: map (fun k => data s !! k) (zseq 0 (Z.to_nat (data_length s)))
    else flat_map (fun k => [Some (background cfg); data s !! k]) (dirtyIndicies s).
Proof. apply painter_styles. Qed.

(** With the dirty flag clear and no recorded index, [painter] returns at once:
    neither the canvas nor the display state changes. *)
Theorem painter_clean_noop cfg s (Hd : dirty s = false) (Hi : dirtyIndicies s = []) :
  painter cfg s = (Ok tt, s).
Proof.
  cbv [painter gets mbind M_bind mret M_ret id]. cbn beta iota.
  rewrite Hd, Hi. reflexivity.
Qed.

Lemma painter_clean_noop_witness :
  painter cfg44 (set_dirty false (init cfg44)) = (Ok tt, set_dirty false (init cfg44)).
Proof. apply (painter_clean_noop cfg44 (set_dirty false (init cfg44))); reflexivity. Defined.

(** ** [updateFontData] computes the widest array row *)

Lemma fold_width_max rows acc :
  let m := fold_left (fun width r =>
             match r with
             | RArr bits => Z.max width (Z.of_nat (length bits))
             | RNum _ => width
             end) rows acc in
  acc <= m /\ (forall bits, In (RArr bits) rows -> Z.of_nat (length bits) <= m) /\
  (m = acc \/ exists bits, In (RArr bits) rows /\ Z.of_nat (length bits) = m).
Proof.
  revert acc; induction rows as [|r rows IH]; intros acc; cbn zeta.
  - cbn. split; [lia|]. split; [intros _ []|left; reflexivity].
  - cbn [fold_left]. destruct r as [bits0|n].
    + destruct (IH (Z.max acc (Z.of_nat (length bits0)))) as (H1 & H2 & H3).
      split; [lia|]. split.
      * intros bits [E|Hin]; [injection E as ->; lia | auto].
      * destruct H3 as [E|(bits & Hin & E)]; [|right; exists bits; split; [right|]; assumption].
        destruct (Z.max_spec acc (Z.of_nat (length bits0))) as [[_ Em]|[_ Em]];
          [right; exists bits0; split; [left; reflexivity | lia]|left; lia].
    + destruct (IH acc) as (H1 & H2 & H3).
      split; [lia|]. split.
      * intros bits [E|Hin]; [discriminate E | auto].
      * destruct H3 as [E|(bits & Hin & E)]; [left; exact E|right; exists bits; split; [right|]; assumption].
Qed.

(** [updateFontData] keeps the rows and caches as width the longest array row
    (number rows do not count), or 0 when there is none. *)
Theorem updateFontData_width g :
  glyph_rows (updateFontData g) = glyph_rows g /\
  exists w, glyph_width (updateFontData g) = Some w /\ 0 <= w /\
  (forall bits, In (RArr bits) (glyph_rows g) -> Z.of_nat (length bits) <= w) /\
  (w = 0 \/ exists bits, In (RArr bits) (glyph_rows g) /\ Z.of_nat (length bits) = w).
Proof.
  split; [reflexivity|].
  destruct (fold_width_max (glyph_rows g) 0) as (H1 & H2 & H3).
  eexists; split; [reflexivity|]. auto.
Qed.

(** ** [draw] with nothing to paint *)

Lemma draw_cols_noop cfg x py j bits c fl hp s :
  (forall j' b, nth_error bits j' = Some b -> 0 <= x + (j + Z.of_nat j') < dot_width cfg ->
     (b =? 1) || fl = false) ->
  draw_cols cfg x py j bits c fl hp s = (Ok hp, s).
Proof.
  revert j; induction bits as [|b0 bits IH]; intros j HK; [reflexivity|].
  assert (IH' : draw_cols cfg x py (j + 1) bits c fl hp s = (Ok hp, s)).
  { apply IH. intros j' b Hb Hx. apply (HK (S j') b Hb). lia. }
  cbn [draw_cols].
  destruct ((0 <=? x + j) && (x + j <? dot_width cfg)) eqn:Hin; [|exact IH'].
  rewrite (HK O b0 eq_refl) by zcmp. exact IH'.
Qed.

Lemma draw_rows_noop cfg x y i shape c fl hp s :
  (forall i' bits j' b, nth_error shape i' = Some (RArr bits) -> nth_error bits j' = Some b ->
     0 <= y + (i + Z.of_nat i') < dot_height cfg -> 0 <= x + Z.of_nat j' < dot_width cfg ->
     (b =? 1) || fl = false) ->
  draw_rows cfg x y i shape c fl hp s = (Ok hp, s).
Proof.
  revert i; induction shape as [|r shape IH]; intros i HK; [reflexivity|].
  assert (IH' : draw_rows cfg x y (i + 1) shape c fl hp s = (Ok hp, s)).
  { apply IH. intros i' bits j' b Hr Hb Hy Hx. apply (HK (S i') bits j' b Hr Hb); lia. }
  cbn [draw_rows].
  destruct ((0 <=? y + i) && (y + i <? dot_height cfg)) eqn:Hin; [|exact IH'].
  destruct r as [bits|n]; [|exact IH'].
  cbv [mbind M_bind].
  rewrite (draw_cols_noop cfg x (y + i) 0 bits c fl hp s); [exact IH'|].
  intros j' b Hb Hx. apply (HK O bits j' b eq_refl Hb); [zcmp|lia].
Qed.

(** When no in-grid cell of the shape would be written (it is off screen, or
    unlit with [fill] off), [draw] returns false and changes nothing: it does
    not even look at the colour, so an invalid one does not raise. *)
Theorem draw_nothing_to_paint_noop cfg x y shape opts s
    (Hnone : forall i' bits j' b, nth_error shape i' = Some (RArr bits) ->
       nth_error bits j' = Some b ->
       0 <= y + Z.of_nat i' < dot_height cfg -> 0 <= x + Z.of_nat j' < dot_width cfg ->
       (b =? 1) || opt_fill opts = false) :
  draw cfg x y shape opts s = (Ok false, s).
Proof.
  unfold draw. apply draw_rows_noop.
  intros i' bits j' b Hr Hb Hy Hx. apply (Hnone i' bits j' b Hr Hb); lia.
Qed.

Lemma draw_nothing_to_paint_noop_witness :
  draw cfg44 0 5 [RArr [1; 1]] (DrawOptions JNull true) (init cfg44) = (Ok false, init cfg44).
Proof.
  apply draw_nothing_to_paint_noop.
  intros i' bits j' b _ _ Hy _. cbn in Hy. lia.
Defined.

(** ** Empty boxes *)

Lemma fill_outer_empty cfg n i y h c s : h <= 0 -> fill_outer cfg n i y h c s = (Ok tt, s).
Proof.
  intros Hh. revert i; induction n as [|n IH]; intros i; [reflexivity|].
  cbn [fill_outer]. replace (Z.to_nat h) with O by lia. apply IH.
Qed.

Lemma rect_outer_empty cfg n x y w h i c s : h <= 0 -> rect_outer cfg n x y w h i c s = (Ok tt, s).
Proof.
  intros Hh. revert i; induction n as [|n IH]; intros i; [reflexivity|].
  cbn [rect_outer]. replace (Z.to_nat h) with O by lia. apply IH.
Qed.

(** [fill] and [rect] on a box with no width or no height do nothing, and do
    not raise whatever the colour. *)
Theorem empty_box_noop cfg x y w h c s (Hempty : w <= 0 \/ h <= 0) :
  fill cfg x y w h c s = (Ok tt, s) /\ rect cfg x y w h c s = (Ok tt, s).
Proof.
  unfold fill, rect. destruct Hempty as [Hw|Hh].
  - replace (Z.to_nat w) with O by lia. split; reflexivity.
  - split; [apply fill_outer_empty | apply rect_outer_empty]; exact Hh.
Qed.

Lemma empty_box_noop_witness :
  fill cfg44 1 1 3 0 JNull (init cfg44) = (Ok tt, init cfg44) /\
  rect cfg44 1 1 3 0 JNull (init cfg44) = (Ok tt, init cfg44).
Proof. apply empty_box_noop. lia. Defined.

(** ** [print] edge cases *)

(** Starting right of the grid ([x > dmd.dot_width]) the loop never runs. *)
Theorem print_past_right_edge cfg x y text f c fl s (Hx : dot_width cfg < x) :
  print cfg x y text f c fl s = (Ok (f, false), s).
Proof.
  cbv [print mbind M_bind mret M_ret].
  destruct (list_ascii_of_string text) as [|a l]; cbn [print_loop]; [reflexivity|].
  replace (x <=? dot_width cfg) with false by zcmp. reflexivity.
Qed.

Lemma print_past_right_edge_witness :
  print cfg44 5 0 "AB" [("A"%char, Glyph [RArr [1]] None)] (JStr "red") true (init cfg44)
  = (Ok ([("A"%char, Glyph [RArr [1]] None)], false), init cfg44).
Proof. apply print_past_right_edge. cbn. lia. Defined.

Lemma print_loop_unknown cfg l cx y o f p s :
  Forall (fun ch => font_lookup f ch = None) l ->
  print_loop cfg l cx y o f p s = (Ok (f, p), s).
Proof.
  intros Hl. induction Hl as [|ch l Hch Hl IH]; [reflexivity|].
  cbn [print_loop]. destruct (cx <=? dot_width cfg); [rewrite Hch; exact IH | reflexivity].
Qed.

(** Characters missing from the font are only skipped: a text made of them
    prints nothing, leaves the display as it was and returns false. *)
Theorem print_unknown_chars_noop cfg x y text f c fl s
    (Hunknown : Forall (fun ch => font_lookup f ch = None) (list_ascii_of_string text)) :
  print cfg x y text f c fl s = (Ok (f, false), s).
Proof.
  cbv [print mbind M_bind mret M_ret].
  rewrite print_loop_unknown by exact Hunknown. reflexivity.
Qed.

Lemma print_unknown_chars_noop_witness :
  print cfg44 0 0 "xy" [("A"%char, Glyph [RArr [1]] None)] JNull true (init cfg44)
  = (Ok ([("A"%char, Glyph [RArr [1]] None)], false), init cfg44).
Proof.
  apply print_unknown_chars_noop. repeat constructor.
Defined.

(** ** [print] with a valid colour *)

Lemma draw_cols_ok_any cfg x py j bits c fl hp s :
  valid_color c = true -> exists b, fst (draw_cols cfg x py j bits c fl hp s) = Ok b.
Proof.
  intros Hc. revert j hp s; induction bits as [|b0 bits IH]; intros j hp s; [eexists; reflexivity|].
  cbn [draw_cols].
  destruct (_ && _); [|apply IH].
  destruct (_ || _); [|apply IH].
  rewrite bind_fst.
  pose proof (set_valid_ok cfg (x + j) py (if b0 =? 1 then c else JUndefined) s) as Hs.
  destruct (set cfg (x + j) py _ s) as [[a|e] s1]; [apply IH|].
  cbn in Hs. discriminate Hs. destruct (b0 =? 1); [exact Hc | reflexivity].
Qed.

Lemma draw_ok_any cfg x y shape c fl s :
  valid_color c = true -> exists b, fst (draw cfg x y shape (DrawOptions c fl) s) = Ok b.
Proof.
  intros Hc. unfold draw; cbn [opt_color opt_fill].
  generalize 0 as i; generalize false as hp; revert s.
  induction shape as [|r shape IH]; intros s hp i; [eexists; reflexivity|].
  cbn [draw_rows].
  destruct (_ && _); [|apply IH].
  destruct r as [bits|n]; [|apply IH].
  rewrite bind_fst.
  destruct (draw_cols_ok_any cfg x (y + i) 0 bits c fl hp s Hc) as [b0 Hb0].
  destruct (draw_cols cfg x (y + i) 0 bits c fl hp s) as [[a|e] s1];
    [apply IH | discriminate Hb0].
Qed.

Lemma font_update_keys f c g : map fst (font_update f c g) = map fst f.
Proof.
  induction f as [|[k g0] f IH]; [reflexivity|].
  cbn. destruct (Ascii.eqb k c); cbn; rewrite ?IH; reflexivity.
Qed.

Lemma font_update_lookup f c g ch :
  font_lookup (font_update f c g) ch =
  if Ascii.eqb c ch then option_map (fun _ => g) (font_lookup f c) else font_lookup f ch.
Proof.
  induction f as [|[k g0] f IH]; [destruct (Ascii.eqb c ch); reflexivity|].
  cbn. destruct (Ascii.eqb_spec k c) as [->|Hkc]; cbn.
  - destruct (Ascii.eqb_spec c ch); reflexivity.
  - rewrite IH. destruct (Ascii.eqb_spec k ch) as [->|Hkch]; [|reflexivity].
    destruct (Ascii.eqb_spec c ch) as [->|]; [congruence | reflexivity].
Qed.


Lemma caches_widths_refl f : caches_widths f f.
Proof.
  split; [reflexivity|]. intros ch. destruct (font_lookup f ch); [left|]; reflexivity.
Qed.

Lemma updateFontData_idem g : updateFontData (updateFontData g) = updateFontData g.
Proof. reflexivity. Qed.

Lemma caches_widths_trans f1 f2 f3 :
  caches_widths f1 f2 -> caches_widths f2 f3 -> caches_widths f1 f3.
Proof.
  intros [K1 R1] [K2 R2]. split; [congruence|]. intros ch.
  specialize (R1 ch). specialize (R2 ch).
  destruct (font_lookup f1 ch) as [g1|], (font_lookup f2 ch) as [g2|],
    (font_lookup f3 ch) as [g3|]; try contradiction; try exact I.
  destruct R1 as [->|[N1 ->]]; destruct R2 as [->|[N2 ->]].
  - left; reflexivity.
  - right; split; [assumption | reflexivity].
  - right; split; [assumption | reflexivity].
  - right; split; [assumption | apply updateFontData_idem].
Qed.

Lemma caches_widths_cache f c g :
  font_lookup f c = Some g -> needs_width g = true ->
  caches_widths f (font_update f c (updateFontData g)).
Proof.
  intros Hg Hn. split; [apply font_update_keys|]. intros ch.
  rewrite font_update_lookup. destruct (Ascii.eqb_spec c ch) as [<-|].
  - rewrite Hg. cbn. right; split; [exact Hn | reflexivity].
  - destruct (font_lookup f ch); [left|]; reflexivity.
Qed.

Lemma print_loop_ok cfg l cx y c fl f p s :
  valid_color c = true ->
  exists f' p', fst (print_loop cfg l cx y (DrawOptions c fl) f p s) = Ok (f', p') /\
                caches_widths f f'.
Proof.
  intros Hc. revert cx f p s; induction l as [|ch l IH]; intros cx f p s.
  - exists f, p. split; [reflexivity | apply caches_widths_refl].
  - cbn [print_loop].
    destruct (cx <=? dot_width cfg); [|exists f, p; split; [reflexivity | apply caches_widths_refl]].
    destruct (font_lookup f ch) as [g|] eqn:Hg; [|apply IH].
    rewrite bind_fst.
    destruct (draw_ok_any cfg cx y (glyph_rows (if needs_width g then updateFontData g else g))
                c fl s Hc) as [b Hb].
    destruct (draw cfg cx y _ (DrawOptions c fl) s) as [[b'|e] s1]; [|discriminate Hb].
    match goal with
    | |- context [print_loop cfg l ?cx' y (DrawOptions c fl) ?f' ?p' s1] =>
        destruct (IH cx' f' p' s1) as (f'' & p'' & E & Hs)
    end.
    exists f'', p''. split; [exact E|].
    eapply caches_widths_trans; [|exact Hs].
    destruct (needs_width g) eqn:Hn; [apply caches_widths_cache; assumption | apply caches_widths_refl].
Qed.

(** With a valid colour [print] never raises, and the font it hands back
    differs only by cached widths: same characters in the same order, each
    glyph unchanged or, if its width was falsy, given the width
    [updateFontData] computes; a nonzero width is never changed. *)
Theorem print_valid_color_ok cfg x y text f c fl s (Hc : valid_color c = true) :
  exists f' b, fst (print cfg x y text f c fl s) = Ok (f', b) /\ caches_widths f f'.
Proof.
  cbv [print]. rewrite bind_fst.
  destruct (print_loop_ok cfg (list_ascii_of_string text) x y c fl f 0 s Hc) as (f' & p & E & Hs).
  destruct (print_loop cfg (list_ascii_of_string text) x y (DrawOptions c fl) f 0 s) as [[[f0 p0]|e] s1];
    cbn in E; [|discriminate E].
  injection E as -> ->. exists f', (0 <? p). split; [reflexivity | exact Hs].
Qed.

Lemma print_valid_color_ok_witness :
  exists f' b, fst (print cfg44 0 0 "AA" [("A"%char, Glyph [RArr [1; 0]; RArr [1; 1]] None)]
                      (JArr [JNum 9; JNum 9; JNum 9]) false (init cfg44)) = Ok (f', b) /\
               caches_widths [("A"%char, Glyph [RArr [1; 0]; RArr [1; 1]] None)] f'.
Proof. apply print_valid_color_ok. reflexivity. Defined.

(** ** Where a circle LED is drawn *)


Lemma updateLed_ops cfg i fl s :
  snd (updateLed cfg i fl s) =
  emit ((if fl then [SetFillStyle (Some (background cfg));
                     FillRect (Z.rem i (dot_width cfg) * dot_size cfg)
                              (i / dot_width cfg * dot_size cfg) (dot_size cfg) (dot_size cfg)]
         else [])
        ++ SetFillStyle (data s !! i) :: led_shape cfg i) s.
Proof. reflexivity. Qed.



(** ** The operations of a full repaint *)

Lemma full_repaint_loop_ops cfg n i s :
  canvas_ops (snd (full_repaint_loop cfg n i s)) =
  canvas_ops s ++ flat_map (fun k => SetFillStyle (data s !! k) :: led_shape cfg k) (zseq i n).
Proof.
  revert i s; induction n as [|n IH]; intros i s; [symmetry; apply app_nil_r|].
  cbn [full_repaint_loop]. rewrite bind_snd.
  change (updateLed cfg i false s) with (Ok tt, snd (updateLed cfg i false s)).
  cbv beta iota. rewrite IH, updateLed_ops, emit_canvas_ops. cbn [zseq flat_map app].
  rewrite <- app_assoc. reflexivity.
Qed.

Lemma painter_full_ops cfg s :
  dirty s = true ->
  canvas_ops (snd (painter cfg s)) =
  canvas_ops s
  ++ [SetFillStyle (Some (background cfg)); FillRect 0 0 (canvas_width cfg) (canvas_height cfg)]
  ++ flat_map (fun k => SetFillStyle (data s !! k) :: led_shape cfg k)
       (zseq 0 (Z.to_nat (data_length s))).
Proof.
  intros Hd. cbv [painter gets mbind M_bind mret M_ret modify id]. cbn beta iota.
  rewrite Hd. cbn.
  set (s0 := emit [SetFillStyle (Some (background cfg));
                   FillRect 0 0 (canvas_width cfg) (canvas_height cfg)] s).
  pose proof (full_repaint_loop_ops cfg (Z.to_nat (data_length s)) 0 s0) as E.
  destruct (full_repaint_loop cfg (Z.to_nat (data_length s)) 0 s0) as [r s1]. cbn in E.
  destruct r; cbn; rewrite E; unfold s0; cbn; rewrite <- app_assoc; reflexivity.
Qed.

Lemma flat_map_zseq_ext {A} (g g' : Z -> list A) j n :
  (forall k, j <= k < j + Z.of_nat n -> g k = g' k) -> flat_map g (zseq j n) = flat_map g' (zseq j n).
Proof.
  revert j; induction n as [|n IH]; intros j Hg; [reflexivity|].
  cbn. rewrite (Hg j) by lia. f_equal. apply IH. intros k Hk. apply Hg. lia.
Qed.

(** ** [clear] followed by a repaint *)

(** After [dmd.clear()] the next repaint is a full one: it fills the whole
    canvas with the background, then for every index of the array, in order,
    sets the [off] colour and draws that dot (a disc or a square). *)
Theorem clear_then_painter_paints_off cfg s :
  canvas_ops (snd (painter cfg (snd (clear cfg s)))) =
  canvas_ops s
  ++ [SetFillStyle (Some (background cfg)); FillRect 0 0 (canvas_width cfg) (canvas_height cfg)]
  ++ flat_map (fun k => SetFillStyle (Some (off cfg)) :: led_shape cfg k)
       (zseq 0 (Z.to_nat (data_length s))).
Proof.
  rewrite painter_full_ops by reflexivity.
  cbn [clear modify snd canvas_ops data data_length]. f_equal. f_equal.
  apply flat_map_zseq_ext. intros k Hk.
  rewrite clear_loop_lookup. replace ((0 <=? k) && (k <? 0 + Z.of_nat (Z.to_nat (data_length s))))
    with true by zcmp. reflexivity.
Qed.

(** ** Writing past the end of the array *)

Lemma zseq_snoc j n : zseq j (S n) = zseq j n ++ [j + Z.of_nat n].
Proof.
  revert j; induction n as [|n IH]; intros j; [cbn; rewrite Z.add_0_r; reflexivity|].
  change (zseq j (S (S n))) with (j :: zseq (j + 1) (S n)). rewrite IH.
  cbn. f_equal. f_equal. f_equal. lia.
Qed.

(** [set] does no bounds check and [data] is a JavaScript array: a valid
    write at a flat index that is an array index ([<= 2^32 - 2]) at or past
    the array's length makes the array one longer than that index.  A
    following full repaint fills the background, then draws every dot up to
    that index in order (the holes in between with an undefined fill style)
    and ends with the written dot in the written colour. *)
Theorem set_past_end_extends_repaint cfg x y c s
    (Hc : valid_color c = true) (Hd : dirty s = true)
    (Hk : 0 <= data_length s <= y * dot_width cfg + x)
    (Hidx : y * dot_width cfg + x <= 4294967294) :
  canvas_ops (snd (painter cfg (snd (set cfg x y c s)))) =
  canvas_ops s
  ++ [SetFillStyle (Some (background cfg)); FillRect 0 0 (canvas_width cfg) (canvas_height cfg)]
  ++ flat_map (fun k => SetFillStyle (data s !! k) :: led_shape cfg k)
       (zseq 0 (Z.to_nat (y * dot_width cfg + x)))
  ++ SetFillStyle (Some (resolved_color cfg c)) :: led_shape cfg (y * dot_width cfg + x).
Proof.
  rewrite set_valid_color by exact Hc. rewrite set_write_data.
  set (k := y * dot_width cfg + x) in *.
  rewrite painter_full_ops by exact Hd.
  cbn [snd push_dirty array_write canvas_ops data data_length].
  replace ((0 <=? k) && (k <=? 4294967294) && (data_length s <=? k)) with true by zcmp.
  cbv beta iota. replace (Z.to_nat (k + 1)) with (S (Z.to_nat k)) by lia.
  rewrite zseq_snoc, flat_map_app. cbn [flat_map]. rewrite app_nil_r.
  replace (0 + Z.of_nat (Z.to_nat k)) with k by lia.
  rewrite lookup_insert_eq. f_equal. f_equal. f_equal.
  apply flat_map_zseq_ext. intros k' Hk'.
  rewrite lookup_insert_ne by lia. reflexivity.
Qed.

Lemma set_past_end_extends_repaint_witness :
  canvas_ops (snd (painter cfg44 (snd (set cfg44 1 4 (JStr "red") (init cfg44))))) =
  canvas_ops (init cfg44)
  ++ [SetFillStyle (Some (background cfg44)); FillRect 0 0 (canvas_width cfg44) (canvas_height cfg44)]
  ++ flat_map (fun k => SetFillStyle (data (init cfg44) !! k) :: led_shape cfg44 k)
       (zseq 0 (Z.to_nat (4 * dot_width cfg44 + 1)))
  ++ SetFillStyle (Some (resolved_color cfg44 (JStr "red"))) :: led_shape cfg44 (4 * dot_width cfg44 + 1).
Proof. apply set_past_end_extends_repaint; [reflexivity | reflexivity | cbn; lia | cbn; lia]. Defined.
